(** * benchmark_providers.py: disposable-mail provider benchmark

    A shallow embedding of [benchmark_providers.py] and the properties of
    its loader, provider registry, request runner and scorer.

    Conventions of the embedding.
    - A Python [str] is a [string]; every character is a code point below
      256.
    - A Python [int] is a [Z].
    - A Python [float] is an IEEE 754 binary64 value ([Binary64.float]),
      with the arithmetic of [SpecFloat].
    - The quotient [a / b] of two Python ints (true division) is modelled by
      its exact rational value in [Q]; the interpreter returns the double
      nearest to it.
    - A Python [dict] is an association list with pairwise distinct keys, in
      insertion order.
    - A call that can raise returns a [result]; code that reads the clock or
      the network threads a [World].
    - [print] calls only write diagnostics and are left out. *)

From Stdlib Require Import ZArith QArith List String Ascii Bool Lia.
From Stdlib Require Import Permutation SpecFloat.
Import ListNotations.

Local Open Scope string_scope.
Local Open Scope Z_scope.
Local Open Scope list_scope.

(* ================================================================== *)
(** ** Python floats *)

Module Binary64.

Definition prec : Z := 53.
Definition emax : Z := 1024.

Definition float : Type := spec_float.

Definition zero : float := S754_zero false.

(** [float(n)] for an int [n]. *)
Definition of_int (n : Z) : float := binary_normalize prec emax n 0 false.

Definition add : float -> float -> float := SFadd prec emax.
Definition sub : float -> float -> float := SFsub prec emax.
Definition mul : float -> float -> float := SFmul prec emax.
Definition div : float -> float -> float := SFdiv prec emax.
Definition abs : float -> float := SFabs.
Definition eqb : float -> float -> bool := SFeqb.
Definition leb : float -> float -> bool := SFleb.

Definition is_zero (x : float) : bool :=
  match x with S754_zero _ => true | _ => false end.

Definition is_finite (x : float) : bool :=
  match x with S754_zero _ | S754_finite _ _ _ => true | _ => false end.

End Binary64.

(* ================================================================== *)
(** ** Exceptions and results *)

(** The exception classes the program can meet; each one derives from
    Python's [Exception]. *)
Inductive exn : Type :=
| ConnectionError
| Timeout
| TooManyRedirects
| JSONDecodeError
| AttributeError
| TypeError
| ZeroDivisionError
| OSError.

Inductive result (A : Type) : Type :=
| Ok (a : A)
| Raise (e : exn).

Arguments Ok {A} a.
Arguments Raise {A} e.

Definition result_bind {A B : Type} (r : result A) (k : A -> result B)
  : result B :=
  match r with
  | Ok a => k a
  | Raise e => Raise e
  end.

Definition result_map {A B : Type} (f : A -> B) (r : result A) : result B :=
  result_bind r (fun a => Ok (f a)).

Declare Scope result_scope.
Delimit Scope result_scope with result.
Notation "x <- c ;; k" := (result_bind c (fun x => k))
  (at level 61, c at next level, right associativity) : result_scope.

(* ================================================================== *)
(** ** Strings *)

Definition LF : ascii := "010"%char.
Definition CR : ascii := "013"%char.

(** [ch.isspace()] for a code point below 256. *)
Definition isspace (c : ascii) : bool :=
  let n := nat_of_ascii c in
  ((9 <=? n) && (n <=? 13) || (28 <=? n) && (n <=? 32)
   || (n =? 133) || (n =? 160))%nat.

(** [ch.lower()] for a code point below 256: the letters A to Z and the
    capital letters of Latin-1 (192 to 222, but for the sign 215). *)
Definition ascii_lower (c : ascii) : ascii :=
  let n := nat_of_ascii c in
  if ((65 <=? n) && (n <=? 90)
      || (192 <=? n) && (n <=? 222) && negb (n =? 215))%nat
  then ascii_of_nat (n + 32) else c.

(** [ch.upper()] for an ASCII character. *)
Definition ascii_upper (c : ascii) : ascii :=
  let n := nat_of_ascii c in
  if ((97 <=? n) && (n <=? 122))%nat then ascii_of_nat (n - 32) else c.

Fixpoint string_map (f : ascii -> ascii) (s : string) : string :=
  match s with
  | EmptyString => EmptyString
  | String c rest => String (f c) (string_map f rest)
  end.

(** [s.lower()], and [s.upper()] for an ASCII string (the program calls
    [upper] on the values of [HttpMethod] only). *)
Definition lower (s : string) : string := string_map ascii_lower s.
Definition upper (s : string) : string := string_map ascii_upper s.

(** [s.lstrip()], [s.rstrip()] and [s.strip()]. *)
Fixpoint lstrip (s : string) : string :=
  match s with
  | EmptyString => EmptyString
  | String c rest => if isspace c then lstrip rest else s
  end.

Fixpoint rstrip (s : string) : string :=
  match s with
  | EmptyString => EmptyString
  | String c rest =>
      match rstrip rest with
      | EmptyString => if isspace c then EmptyString else String c EmptyString
      | r => String c r
      end
  end.

Definition strip (s : string) : string := lstrip (rstrip s).

(** Truth value of a [str]. *)
Definition str_truthy (s : string) : bool :=
  match s with EmptyString => false | _ => true end.

(* ================================================================== *)
(** ** Dictionaries *)

Definition dict (V : Type) : Type := list (string * V).

Fixpoint dict_get {V : Type} (k : string) (d : dict V) : option V :=
  match d with
  | [] => None
  | (k', v) :: rest => if String.eqb k k' then Some v else dict_get k rest
  end.

(** [d[k] = v]: the value of an existing key is replaced in place, a new
    key is added at the end. *)
Fixpoint dict_set {V : Type} (k : string) (v : V) (d : dict V) : dict V :=
  match d with
  | [] => [(k, v)]
  | (k', v') :: rest =>
      if String.eqb k k' then (k', v) :: rest
      else (k', v') :: dict_set k v rest
  end.

Definition dict_keys {V : Type} (d : dict V) : list string := map fst d.

(* ================================================================== *)
(** ** Decoded JSON values *)

#[local] Set Warnings "-register-all".

(** What [resp.json()] returns: [None], [bool], [int], [float], [str],
    [list] or [dict]. *)
Inductive json : Type :=
| JNull
| JBool (b : bool)
| JInt (n : Z)
| JFloat (f : Binary64.float)
| JStr (s : string)
| JList (l : list json)
| JDict (d : list (string * json)).

(** [bool(v)]. *)
Definition truthy (v : json) : bool :=
  match v with
  | JNull => false
  | JBool b => b
  | JInt n => negb (n =? 0)
  | JFloat f => negb (Binary64.is_zero f)
  | JStr s => str_truthy s
  | JList l => match l with [] => false | _ => true end
  | JDict d => match d with [] => false | _ => true end
  end.

(** [v.get(k, default)]: only a [dict] has a [get] method. *)
Definition py_get (v : json) (k : string) (default : json) : result json :=
  match v with
  | JDict d =>
      Ok (match dict_get k d with Some x => x | None => default end)
  | _ => Raise AttributeError
  end.

(** [v.lower()]: only a [str] has a [lower] method. *)
Definition py_lower (v : json) : result json :=
  match v with
  | JStr s => Ok (JStr (lower s))
  | _ => Raise AttributeError
  end.

(** [v == s] for a [str] literal [s]. *)
Definition py_eq_str (v : json) (s : string) : bool :=
  match v with
  | JStr s' => String.eqb s' s
  | _ => false
  end.

(** [v == n] for an [int] literal [n]: [bool] is a subclass of [int], and a
    [float] equals an [int] when it has the same value. *)
Definition py_eq_int (v : json) (n : Z) : bool :=
  match v with
  | JBool b => (if b then 1 else 0) =? n
  | JInt m => m =? n
  | JFloat f => Binary64.eqb f (Binary64.of_int n)
  | _ => false
  end.

(* ================================================================== *)
(** ** The provider registry *)

Inductive HttpMethod : Type := GET | POST.

Definition HttpMethod_value (m : HttpMethod) : string :=
  match m with GET => "GET" | POST => "POST" end.

(** A provider descriptor.  [endpoint] and [map_func] are read with
    [provider[...]], the other entries with [provider.get(...)]. *)
Record Provider : Type := mkProvider {
  name : option string;
  endpoint : string;
  method : option HttpMethod;
  headers : option (dict (option string));
  params : option (dict (option string));
  map_func : json -> result json
}.

Definition Bouncer_map_func (resp : json) : result json :=
  (domain <- py_get resp "domain" (JDict []) ;;
   disposable <- py_get domain "disposable" JNull ;;
   Ok (JBool (py_eq_str disposable "yes")))%result.

Definition Emailable_map_func (resp : json) : result json :=
  py_get resp "disposable" (JBool false).

Definition Bouncify_map_func (resp : json) : result json :=
  (disposable <- py_get resp "disposable" (JInt 0) ;;
   Ok (JBool (py_eq_int disposable 1)))%result.

Definition MailCheck_map_func (resp : json) : result json :=
  py_get resp "disposable" (JBool false).

Definition Reoon_map_func (resp : json) : result json :=
  py_get resp "is_disposable" (JBool false).

Definition Debounce_map_func (resp : json) : result json :=
  (disposable <- py_get resp "disposable" (JStr "false") ;;
   lowered <- py_lower disposable ;;
   Ok (JBool (py_eq_str lowered "true")))%result.

Definition Kickbox_map_func (resp : json) : result json :=
  py_get resp "disposable" (JBool false).

Section Registry.

(** [os.getenv]: the process environment after [load_dotenv()]. *)
Variable getenv : string -> option string.

Definition PROVIDERS : list Provider :=
  [ {| name := Some "Bouncer";
       endpoint := "https://api.usebouncer.com/v1.1/email/verify";
       method := Some GET;
       headers := Some [("x-api-key", getenv "BOUNCER_API_KEY")];
       params := Some [("email", None)];
       map_func := Bouncer_map_func |};
    {| name := Some "Emailable";
       endpoint := "https://api.emailable.com/v1/verify";
       method := Some GET;
       headers := Some [];
       params := Some [("email", None);
                       ("api_key", getenv "EMAILABLE_API_KEY")];
       map_func := Emailable_map_func |};
    {| name := Some "Bouncify";
       endpoint := "https://api.bouncify.io/v1/verify";
       method := Some GET;
       headers := Some [("Accept", Some "*/*");
                        ("Content-Type", Some "application/json")];
       params := Some [("apikey", getenv "BOUNCIFY_API_KEY");
                       ("email", None)];
       map_func := Bouncify_map_func |};
    {| name := Some "Mail-Check";
       endpoint := "https://mailcheck.p.rapidapi.com";
       method := Some GET;
       headers := Some [("x-rapidapi-host", Some "mailcheck.p.rapidapi.com");
                        ("x-rapidapi-key", getenv "MAILCHECK_API_KEY")];
       params := Some [("domain", Some "mailinator.com")];
       map_func := MailCheck_map_func |};
    {| name := Some "Reoon";
       endpoint := "https://emailverifier.reoon.com/api/v1/verify";
       method := Some GET;
       headers := Some [];
       params := Some [("email", None);
                       ("key", getenv "REOON_API_KEY");
                       ("mode", Some "quick")];
       map_func := Reoon_map_func |};
    {| name := Some "Debounce";
       endpoint := "https://disposable.debounce.io";
       method := Some GET;
       headers := Some [];
       params := Some [("email", None)];
       map_func := Debounce_map_func |};
    {| name := Some "Kickbox";
       endpoint := "https://api.kickbox.com/v2/verify";
       method := Some GET;
       headers := Some [];
       params := Some [("email", None);
                       ("apikey", getenv "KICKBOX_API_KEY")];
       map_func := Kickbox_map_func |} ].

End Registry.

(* ================================================================== *)
(** ** Email-list loader *)

(** A text file opened with [open(path, "r")]: the translation of the line
    ends ["\r\n"] and ["\r"] to ["\n"], and the lines the file object
    yields, each with its ["\n"] (the last one may lack it). *)
Fixpoint universal_newlines (s : string) : string :=
  match s with
  | EmptyString => EmptyString
  | String c rest =>
      if Ascii.eqb c CR then
        match rest with
        | String c' rest' =>
            if Ascii.eqb c' LF then String LF (universal_newlines rest')
            else String LF (universal_newlines rest)
        | EmptyString => String LF EmptyString
        end
      else String c (universal_newlines rest)
  end.

Fixpoint iter_lines (s : string) : list string :=
  match s with
  | EmptyString => []
  | String c rest =>
      if Ascii.eqb c LF then String LF EmptyString :: iter_lines rest
      else
        match iter_lines rest with
        | [] => [String c EmptyString]
        | line :: lines => String c line :: lines
        end
  end.

(** [[line.strip() for line in f if line.strip()]]. *)
Fixpoint stripped_lines (f : list string) : list string :=
  match f with
  | [] => []
  | line :: rest =>
      if str_truthy (strip line) then strip line :: stripped_lines rest
      else stripped_lines rest
  end.

(** The readable files: the decoded text of each one. *)
Definition FileSystem : Type := string -> option string.

Definition load_emails (fs : FileSystem) (path : string)
  : result (list string) :=
  match fs path with
  | None => Raise OSError
  | Some content => Ok (stripped_lines (iter_lines (universal_newlines content)))
  end.

(** The loader in the words of its contract: the text split at its line
    boundaries (["\n"], ["\r\n"], ["\r"]), without the line ends. *)
Fixpoint split_lines (s : string) : list string :=
  match s with
  | EmptyString => []
  | String c rest =>
      if Ascii.eqb c LF then EmptyString :: split_lines rest
      else if Ascii.eqb c CR then
        match rest with
        | String c' rest' =>
            if Ascii.eqb c' LF then EmptyString :: split_lines rest'
            else EmptyString :: split_lines rest
        | EmptyString => [EmptyString]
        end
      else
        match split_lines rest with
        | [] => [String c EmptyString]
        | line :: lines => String c line :: lines
        end
  end.

Definition nonempty (s : string) : bool := negb (String.eqb s "").

(* ================================================================== *)
(** ** Request runner *)

(** The parameter loop of [test_provider]:
    [for k, v in ...items(): params[k] = email if v is None else v]. *)
Definition build_params (template : dict (option string)) (email : string)
  : dict string :=
  fold_left
    (fun (params : dict string) (kv : string * option string) =>
       match snd kv with
       | None => dict_set (fst kv) email params
       | Some v => dict_set (fst kv) v params
       end)
    template [].

Definition provider_params (provider : Provider) : dict (option string) :=
  match params provider with Some d => d | None => [] end.

Definition provider_headers (provider : Provider) : dict (option string) :=
  match headers provider with Some d => d | None => [] end.

Definition provider_method (provider : Provider) : string :=
  upper (HttpMethod_value
           (match method provider with Some m => m | None => GET end)).

(** One call of [requests.request]. *)
Record Request : Type := mkRequest {
  req_method : string;
  req_url : string;
  req_headers : dict (option string);
  req_params : dict string;
  req_timeout : Z
}.

(** A response: its status code and what [resp.json()] returns or raises. *)
Record Response : Type := mkResponse {
  status_code : Z;
  resp_json : result json
}.

(** The world outside the program: the successive readings of
    [time.time()], and the outcome of the n-th request sent. *)
Record World : Type := mkWorld {
  clock : nat -> Binary64.float;
  ticks : nat;
  network : nat -> Request -> result Response;
  sent : list Request
}.

Definition M (A : Type) : Type := World -> result A * World.

Definition ret {A : Type} (a : A) : M A := fun w => (Ok a, w).

Definition bind {A B : Type} (c : M A) (k : A -> M B) : M B :=
  fun w =>
    match c w with
    | (Ok a, w') => k a w'
    | (Raise e, w') => (Raise e, w')
    end.

Definition lift {A : Type} (r : result A) : M A := fun w => (r, w).

(** [try: body  except Exception as e: handler e]. *)
Definition try_except {A : Type} (body : M A) (handler : exn -> M A) : M A :=
  fun w =>
    match body w with
    | (Ok a, w') => (Ok a, w')
    | (Raise e, w') => handler e w'
    end.

Declare Scope monad_scope.
Delimit Scope monad_scope with monad.
Notation "x <- c ;; k" := (bind c (fun x => k))
  (at level 61, c at next level, right associativity) : monad_scope.

Definition time_time : M Binary64.float :=
  fun w =>
    (Ok (clock w (ticks w)),
     {| clock := clock w; ticks := S (ticks w);
        network := network w; sent := sent w |}).

Definition requests_request (method url : string)
    (headers : dict (option string)) (params : dict string) (timeout : Z)
  : M Response :=
  fun w =>
    let req := {| req_method := method; req_url := url;
                  req_headers := headers; req_params := params;
                  req_timeout := timeout |} in
    (network w (List.length (sent w)) req,
     {| clock := clock w; ticks := ticks w;
        network := network w; sent := sent w ++ [req] |}).

Definition requests_get (url : string) (headers : dict (option string))
    (params : dict string) (timeout : Z) : M Response :=
  requests_request "GET" url headers params timeout.

(** [(t - start) * 1000]. *)
Definition elapsed_ms (t start : Binary64.float) : Binary64.float :=
  Binary64.mul (Binary64.sub t start) (Binary64.of_int 1000).

Record Verdict : Type := mkVerdict {
  predicted : bool;
  expected : bool;
  time_ms : Binary64.float
}.

(** The body of the [for email in email_list] loop, up to the verdict that
    is appended to [results]. *)
Definition test_email (provider : Provider) (expected_flag : bool)
    (email : string) : M Verdict :=
  (let params := build_params (provider_params provider) email in
   let url := endpoint provider in
   let method := provider_method provider in
   start <- time_time ;;
   outcome <-
     try_except
       (resp <- (if String.eqb method "GET"
                 then requests_get url (provider_headers provider) params 10
                 else requests_request method url
                        (provider_headers provider) params 10) ;;
        t <- time_time ;;
        let elapsed := elapsed_ms t start in
        data <- lift (resp_json resp) ;;
        flag <- lift (map_func provider data) ;;
        let predicted_flag := truthy flag in
        ret (elapsed, predicted_flag))
       (fun e =>
          t <- time_time ;;
          let elapsed := elapsed_ms t start in
          let predicted_flag := false in
          ret (elapsed, predicted_flag)) ;;
   ret {| predicted := snd outcome; expected := expected_flag;
          time_ms := fst outcome |})%monad.

Fixpoint test_provider_loop (provider : Provider) (expected_flag : bool)
    (email_list : list string) (results : list Verdict) : M (list Verdict) :=
  match email_list with
  | [] => ret results
  | email :: rest =>
      (v <- test_email provider expected_flag email ;;
       test_provider_loop provider expected_flag rest (results ++ [v]))%monad
  end.

Definition test_provider (provider : Provider) (email_list : list string)
    (expected_flag : bool) : M (list Verdict) :=
  test_provider_loop provider expected_flag email_list [].

(** The request sent for one email. *)
Definition request_of (provider : Provider) (email : string) : Request :=
  {| req_method := provider_method provider;
     req_url := endpoint provider;
     req_headers := provider_headers provider;
     req_params := build_params (provider_params provider) email;
     req_timeout := 10 |}.

Definition after (w : World) (reads : nat) (req : Request) : World :=
  {| clock := clock w; ticks := (reads + ticks w)%nat;
     network := network w; sent := sent w ++ [req] |}.

(** What one iteration of the loop does to the world and which verdict it
    leaves, case by case on the outcome of the request. *)
Definition step_verdict (provider : Provider) (expected_flag : bool)
    (email : string) (w : World) : Verdict * World :=
  let req := request_of provider email in
  let start := clock w (ticks w) in
  let failed_at (n : nat) :=
    ({| predicted := false; expected := expected_flag;
        time_ms := elapsed_ms (clock w (n + ticks w)%nat) start |},
     after w (S n) req) in
  match network w (List.length (sent w)) req with
  | Raise _ => failed_at 1%nat
  | Ok resp =>
      match resp_json resp with
      | Raise _ => failed_at 2%nat
      | Ok data =>
          match map_func provider data with
          | Raise _ => failed_at 2%nat
          | Ok flag =>
              ({| predicted := truthy flag; expected := expected_flag;
                  time_ms := elapsed_ms (clock w (1 + ticks w)%nat) start |},
               after w 2 req)
          end
      end
  end.

(** What the request for [email] comes to in world [w]: the value of
    [map_func(resp.json())], or the exception raised on the way by the
    request, by [resp.json()] or by [map_func]. *)
Definition request_outcome (provider : Provider) (email : string) (w : World)
  : result json :=
  (resp <- network w (List.length (sent w)) (request_of provider email) ;;
   data <- resp_json resp ;;
   map_func provider data)%result.

(** The loop of [test_provider], email by email in the order of the list,
    each iteration in the world the one before it left. *)
Inductive runs (provider : Provider) (expected_flag : bool)
  : list string -> World -> list Verdict -> World -> Prop :=
| runs_nil (w : World) : runs provider expected_flag [] w [] w
| runs_cons (email : string) (rest : list string) (w w1 w' : World)
    (v : Verdict) (vs : list Verdict) :
    test_email provider expected_flag email w = (Ok v, w1) ->
    runs provider expected_flag rest w1 vs w' ->
    runs provider expected_flag (email :: rest) w (v :: vs) w'.

(* ================================================================== *)
(** ** Scorer *)

(** [sum(1 for r in all_results if cond(r))]. *)
Definition py_sum_int (xs : list Z) : Z := fold_left Z.add xs 0.

Definition count_if (cond : Verdict -> bool) (all_results : list Verdict) : Z :=
  py_sum_int (map (fun _ => 1) (filter cond all_results)).

(** The built-in [sum] over floats starts from the int [0] and takes the
    items from left to right.  CPython up to 3.11 adds them one by one;
    from 3.12 on it keeps a compensation term (Neumaier) that it adds at
    the end. *)
Inductive sum_algorithm : Type := LeftToRight | Compensated.

Definition compensated_step (acc : Binary64.float * Binary64.float)
    (x : Binary64.float) : Binary64.float * Binary64.float :=
  let (f_result, c) := acc in
  let t := Binary64.add f_result x in
  if Binary64.leb (Binary64.abs x) (Binary64.abs f_result)
  then (t, Binary64.add c (Binary64.add (Binary64.sub f_result t) x))
  else (t, Binary64.add c (Binary64.add (Binary64.sub x t) f_result)).

Definition compensated_result (acc : Binary64.float * Binary64.float)
  : Binary64.float :=
  let (f_result, c) := acc in
  if negb (Binary64.is_zero c) && Binary64.is_finite c
  then Binary64.add f_result c
  else f_result.

(** [sum(xs)] as the operand of a division: the int [0] of an empty sum
    stands as [float(0)]. *)
Definition py_sum_float (alg : sum_algorithm) (xs : list Binary64.float)
  : Binary64.float :=
  match xs with
  | [] => Binary64.of_int 0
  | x :: rest =>
      let first := Binary64.add (Binary64.of_int 0) x in
      match alg with
      | LeftToRight => fold_left Binary64.add rest first
      | Compensated =>
          compensated_result
            (fold_left compensated_step rest (first, Binary64.zero))
      end
  end.

(** [x / n] for a float [x] and an int [n]. *)
Definition truediv_float_int (x : Binary64.float) (n : Z)
  : result Binary64.float :=
  if n =? 0 then Raise ZeroDivisionError
  else Ok (Binary64.div x (Binary64.of_int n)).

(** [a / b] for two ints. *)
Definition truediv_int (a b : Z) : result Q :=
  if b =? 0 then Raise ZeroDivisionError
  else Ok (inject_Z a / inject_Z b)%Q.

(** A Python number that is an int or a float. *)
Inductive pynum : Type :=
| PyInt (n : Z)
| PyFloat (f : Binary64.float).

(** Truth value of an int. *)
Definition int_truthy (n : Z) : bool := negb (n =? 0).

Record Report : Type := mkReport {
  total_requests : Z;
  avg_response_time : pynum;
  true_positives : Z;
  false_negatives : Z;
  false_positives : Z;
  true_negatives : Z;
  accuracy : Q;
  precision : Q;
  recall : Q
}.

(** Lines 177 to 199 of [main]: the confusion matrix and the rates of one
    provider. *)
Definition score (alg : sum_algorithm) (all_results : list Verdict)
  : result Report :=
  (let true_positives :=
     count_if (fun r => predicted r && expected r) all_results in
   let false_negatives :=
     count_if (fun r => negb (predicted r) && expected r) all_results in
   let false_positives :=
     count_if (fun r => predicted r && negb (expected r)) all_results in
   let true_negatives :=
     count_if (fun r => negb (predicted r) && negb (expected r))
       all_results in
   let total_requests := Z.of_nat (List.length all_results) in
   avg_response_time <-
     (if int_truthy total_requests
      then result_map PyFloat
             (truediv_float_int
                (py_sum_float alg (map time_ms all_results)) total_requests)
      else Ok (PyInt 0)) ;;
   accuracy <-
     (if int_truthy total_requests
      then truediv_int (true_positives + true_negatives) total_requests
      else Ok 0%Q) ;;
   precision <-
     (if int_truthy (true_positives + false_positives)
      then truediv_int true_positives (true_positives + false_positives)
      else Ok 0%Q) ;;
   recall <-
     (if int_truthy (true_positives + false_negatives)
      then truediv_int true_positives (true_positives + false_negatives)
      else Ok 0%Q) ;;
   Ok {| total_requests := total_requests;
         avg_response_time := avg_response_time;
         true_positives := true_positives;
         false_negatives := false_negatives;
         false_positives := false_positives;
         true_negatives := true_negatives;
         accuracy := accuracy;
         precision := precision;
         recall := recall |})%result.

(** The number of verdicts whose pair (predicted, expected) is [(p, e)]. *)
Definition confusion_count (p e : bool) (verdicts : list Verdict) : Z :=
  Z.of_nat
    (List.length
       (filter (fun r => Bool.eqb (predicted r) p && Bool.eqb (expected r) e)
          verdicts)).

(** A rate [num / den] that is 0 when its denominator is 0. *)
Definition rate (num den : Z) : Q :=
  if den =? 0 then 0%Q else (inject_Z num / inject_Z den)%Q.


(** The average latency in the words of the contract: the float sum of the
    latencies over their number, and the int 0 for no verdict at all. *)
Definition avg_of (alg : sum_algorithm) (rs : list Verdict) : pynum :=
  let total := Z.of_nat (List.length rs) in
  if total =? 0 then PyInt 0
  else PyFloat (Binary64.div (py_sum_float alg (map time_ms rs))
                  (Binary64.of_int total)).

(** Sample latencies: the doubles written [0.1], [0.2], [0.3], [1.0],
    [1.0000000000000002] and [9007199254740992.0] in Python. *)
Definition ms_0_1 : Binary64.float := S754_finite false 7205759403792794 (-56).
Definition ms_0_2 : Binary64.float := S754_finite false 7205759403792794 (-55).
Definition ms_0_3 : Binary64.float := S754_finite false 5404319552844595 (-54).
Definition ms_1 : Binary64.float := S754_finite false 4503599627370496 (-52).
Definition ms_1_next : Binary64.float :=
  S754_finite false 4503599627370497 (-52).
Definition ms_2p53 : Binary64.float := S754_finite false 4503599627370496 1.

Definition hit (t : Binary64.float) : Verdict :=
  {| predicted := true; expected := true; time_ms := t |}.

Definition miss (t : Binary64.float) : Verdict :=
  {| predicted := false; expected := true; time_ms := t |}.

Definition pass (t : Binary64.float) : Verdict :=
  {| predicted := false; expected := false; time_ms := t |}.

(** An entry of the parameter template with the email in the place of
    None. *)
Definition substitute (email : string) (kv : string * option string)
  : string * string :=
  (fst kv, match snd kv with None => email | Some v => v end).

Definition is_named (n : string) (provider : Provider) : bool :=
  match name provider with
  | Some n' => String.eqb n' n
  | None => false
  end.

(** A sample environment, in which every variable is set to ["secret"], and
    the providers of the registry under it, by position. *)
Definition sample_getenv (var : string) : option string := Some "secret".

Definition sample_provider (i : nat) : Provider :=
  nth i (PROVIDERS sample_getenv)
    {| name := None; endpoint := ""; method := None; headers := None;
       params := None; map_func := fun _ => Ok JNull |}.

(** The top-level key a classifier reads, and whether the field it looks
    for is missing from a decoded object: for Bouncer, [domain] is missing or
    is an object without [disposable]. *)
Definition classify_key (provider : Provider) : string :=
  if is_named "Bouncer" provider then "domain"
  else if is_named "Reoon" provider then "is_disposable"
  else "disposable".

Definition field_missing (provider : Provider) (d : dict json) : bool :=
  match dict_get (classify_key provider) d with
  | None => true
  | Some (JDict inner) =>
      is_named "Bouncer" provider
      && match dict_get "disposable" inner with
         | None => true
         | Some _ => false
         end
  | Some _ => false
  end.

(** A world in which every request is answered with status 500 and the
    JSON body [{"disposable": true}], and the clock advances by one second
    per reading. *)
Definition server_error_world : World :=
  {| clock := fun n => Binary64.of_int (Z.of_nat n);
     ticks := 0;
     network := fun _ _ =>
       Ok {| status_code := 500;
             resp_json := Ok (JDict [("disposable", JBool true)]) |};
     sent := [] |}.

(** Two lines that differ in trailing whitespace only. *)
Definition same_rstrip (l l' : string) : Prop := rstrip l = rstrip l'.

(** A sample file: [" a@mailinator.com \r\n\r\n\tb@gmail.com\n  \nc@yopmail.com"]. *)
Definition sample_content : string :=
  (" a@mailinator.com " ++ String CR (String LF "")
   ++ String CR (String LF "")
   ++ String "009"%char "b@gmail.com" ++ String LF ""
   ++ "  " ++ String LF ""
   ++ "c@yopmail.com")%string.

Definition sample_fs : FileSystem :=
  fun path => if String.eqb path "missed.txt" then Some sample_content
              else None.

(** Worlds with the same clock in which every request times out, is
    answered with a body that is not JSON, or is answered with a JSON list. *)
Definition world_with (outcome : result Response) : World :=
  {| clock := fun n => Binary64.of_int (Z.of_nat n);
     ticks := 0;
     network := fun _ _ => outcome;
     sent := [] |}.

Definition timeout_world : World := world_with (Raise Timeout).

Definition html_world : World :=
  world_with (Ok {| status_code := 200; resp_json := Raise JSONDecodeError |}).

Definition list_world : World :=
  world_with (Ok {| status_code := 200; resp_json := Ok (JList []) |}).

(* ================================================================== *)
(** ** The main program *)

(** The parsed command line: [--missed] and [--normal] are required,
    [--detected] is [None] when the flag is absent. *)
Record Args : Type := mkArgs {
  missed : string;
  detected : option string;
  normal : string
}.

(** [load_emails(args.detected) if args.detected else []]. *)
Definition load_detected (fs : FileSystem) (args : Args)
  : result (list string) :=
  match detected args with
  | Some path => if str_truthy path then load_emails fs path else Ok []
  | None => Ok []
  end.

(** Lines 173 to 199 of [main]: the two runs of one provider and the score
    of their results. *)
Definition main_provider (alg : sum_algorithm) (provider : Provider)
    (disposable_emails normal_emails : list string) : M Report :=
  (results_disposable <- test_provider provider disposable_emails true ;;
   results_normal <- test_provider provider normal_emails false ;;
   let all_results := results_disposable ++ results_normal in
   lift (score alg all_results))%monad.

(** What can end [main]: an exception that nothing catches, or the KeyError
    of [provider["name"]] on a descriptor without a name. *)
Inductive failure : Type :=
| Uncaught (e : exn)
| KeyError (key : string).

Inductive outcome (A : Type) : Type :=
| Done (a : A)
| Failed (f : failure).

Arguments Done {A} a.
Arguments Failed {A} f.

(** One entry of [summary_records], with the values that lines 205 to 212
    round still unrounded. *)
Record SummaryRecord : Type := mkSummaryRecord {
  record_provider : string;
  record_report : Report
}.

(** The loop [for provider in PROVIDERS] of [main]. *)
Fixpoint main_loop (alg : sum_algorithm) (providers : list Provider)
    (disposable_emails normal_emails : list string)
    (summary_records : list SummaryRecord) (w : World)
  : outcome (list SummaryRecord) * World :=
  match providers with
  | [] => (Done summary_records, w)
  | provider :: rest =>
      match main_provider alg provider disposable_emails normal_emails w with
      | (Raise e, w') => (Failed (Uncaught e), w')
      | (Ok report, w') =>
          match name provider with
          | None => (Failed (KeyError "name"), w')
          | Some n =>
              main_loop alg rest disposable_emails normal_emails
                (summary_records
                 ++ [{| record_provider := n; record_report := report |}])
                w'
          end
      end
  end.

(** [main], from the parsed arguments to the list [summary_records]; the
    rendering of the table (lines 216 and 217) is left out. *)
Definition main (alg : sum_algorithm) (getenv : string -> option string)
    (args : Args) (fs : FileSystem) (w : World)
  : outcome (list SummaryRecord) * World :=
  match load_emails fs (missed args) with
  | Raise e => (Failed (Uncaught e), w)
  | Ok missed_emails =>
      match load_detected fs args with
      | Raise e => (Failed (Uncaught e), w)
      | Ok detected_emails =>
          match load_emails fs (normal args) with
          | Raise e => (Failed (Uncaught e), w)
          | Ok normal_emails =>
              let disposable_emails := missed_emails ++ detected_emails in
              main_loop alg (PROVIDERS getenv) disposable_emails
                normal_emails [] w
          end
      end
  end.

(** The requests one provider is sent by [main]: the disposable emails,
    then the normal ones. *)
Definition provider_requests (disposable_emails normal_emails : list string)
    (provider : Provider) : list Request :=
  map (request_of provider) disposable_emails
  ++ map (request_of provider) normal_emails.

(** Whether a classifier raises on a decoded value: on any value that is not
    an object, for Bouncer on a [domain] that is not an object, for Debounce
    on a [disposable] that is not a string. *)
Definition classifier_raises (provider : Provider) (resp : json) : bool :=
  match resp with
  | JDict d =>
      if is_named "Bouncer" provider then
        match dict_get "domain" d with
        | None | Some (JDict _) => false
        | Some _ => true
        end
      else if is_named "Debounce" provider then
        match dict_get "disposable" d with
        | None | Some (JStr _) => false
        | Some _ => true
        end
      else false
  | _ => true
  end.

(** A text with one entry per line, each line ended by ["\n"]. *)
Fixpoint unlines (entries : list string) : string :=
  match entries with
  | [] => EmptyString
  | e :: rest => (e ++ String LF (unlines rest))%string
  end.

(** The characters of a string. *)
Definition chars (s : string) : list ascii := list_ascii_of_string s.

(** A sample command line and file system: [--missed missed.txt --normal
    normal.txt], with one disposable and one normal email. *)
Definition sample_args : Args :=
  {| missed := "missed.txt"; detected := None; normal := "normal.txt" |}.

Definition two_files : FileSystem :=
  fun path =>
    if String.eqb path "missed.txt" then Some "a@mailinator.com"
    else if String.eqb path "normal.txt" then Some "b@gmail.com"
    else None.

(** An environment in which no variable is set. *)
Definition empty_getenv (var : string) : option string := None.

(** The parameter that carries the API key and the environment variable it
    is read from, for the providers that pass their key as a parameter
    (lines 42, 55, 80 and 102). *)
Definition key_params : list (string * string * string) :=
  [ ("Emailable", "api_key", "EMAILABLE_API_KEY");
    ("Bouncify", "apikey", "BOUNCIFY_API_KEY");
    ("Reoon", "key", "REOON_API_KEY");
    ("Kickbox", "apikey", "KICKBOX_API_KEY") ].

(** A string without line break. *)
Definition no_break (s : string) : Prop :=
  Forall (fun c => c <> LF /\ c <> CR) (chars s).

(** What the report of one provider satisfies in [main], for the emails
    loaded and the world [w] its runs started in. *)
Definition provider_report_ok (disposable_emails normal_emails : list string)
    (w : World) (report : Report) : Prop :=
  total_requests report
  = Z.of_nat (List.length disposable_emails + List.length normal_emails)
  /\ true_positives report + false_negatives report
     = Z.of_nat (List.length disposable_emails)
  /\ false_positives report + true_negatives report
     = Z.of_nat (List.length normal_emails)
  /\ recall report
     = rate (true_positives report)
         (Z.of_nat (List.length disposable_emails))
  /\ ((forall (n : nat) (req : Request),
          exists e : exn, network w n req = Raise e) ->
      true_positives report = 0 /\ false_positives report = 0).

(** A world in which every response has its status code rewritten by
    [f], everything else being the same. *)
Definition set_status (f : Z -> Z) (resp : Response) : Response :=
  {| status_code := f (status_code resp); resp_json := resp_json resp |}.

Definition with_status (f : Z -> Z) (w : World) : World :=
  {| clock := clock w; ticks := ticks w;
     network := fun n req => result_map (set_status f) (network w n req);
     sent := sent w |}.

(** An object whose field [key] is present and true for [bool()]. *)
Definition field_truthy (key : string) (resp : json) : Prop :=
  exists (d : dict json) (v : json),
    resp = JDict d /\ dict_get key d = Some v /\ truthy v = true.

(* ================================================================== *)
(** * Properties *)

(** ** Scorer *)

Section ScorerFacts.

Lemma py_sum_int_ones {A : Type} (l : list A) (a : Z) :
  fold_left Z.add (map (fun _ => 1) l) a = a + Z.of_nat (List.length l).
Proof.
  revert a; induction l as [|x l IH]; intros a; simpl List.length.
  - simpl; lia.
  - cbn [map fold_left]. rewrite IH. lia.
Qed.

Lemma count_if_length (cond : Verdict -> bool) (rs : list Verdict) :
  count_if cond rs = Z.of_nat (List.length (filter cond rs)).
Proof.
  unfold count_if, py_sum_int. rewrite py_sum_int_ones. lia.
Qed.

Lemma count_if_nonneg (cond : Verdict -> bool) (rs : list Verdict) :
  0 <= count_if cond rs.
Proof. rewrite count_if_length. lia. Qed.

Lemma filter_ext_length (f g : Verdict -> bool) (rs : list Verdict) :
  (forall r, f r = g r) ->
  List.length (filter f rs) = List.length (filter g rs).
Proof.
  intros E. induction rs as [|r rs IH]; simpl; [reflexivity|].
  rewrite E. destruct (g r); simpl; congruence.
Qed.

Lemma count_if_confusion (p e : bool) (rs : list Verdict) :
  count_if (fun r => (if p then predicted r else negb (predicted r))
                     && (if e then expected r else negb (expected r))) rs
  = confusion_count p e rs.
Proof.
  rewrite count_if_length. unfold confusion_count. f_equal.
  apply filter_ext_length. intros r.
  destruct p, e, (predicted r), (expected r); reflexivity.
Qed.

(** Every verdict falls in exactly one cell of the confusion matrix. *)
Lemma confusion_partition (rs : list Verdict) :
  confusion_count true true rs + confusion_count false true rs
  + confusion_count true false rs + confusion_count false false rs
  = Z.of_nat (List.length rs).
Proof.
  unfold confusion_count.
  induction rs as [|r rs IH]; [reflexivity|].
  cbn [filter List.length].
  destruct (predicted r), (expected r); cbn [Bool.eqb andb List.length]; lia.
Qed.

Lemma guarded_truediv_int (num den : Z) :
  (if int_truthy den then truediv_int num den else Ok 0%Q)
  = Ok (rate num den).
Proof.
  unfold int_truthy, truediv_int, rate.
  destruct (den =? 0); reflexivity.
Qed.

Lemma guarded_truediv_float (alg : sum_algorithm) (rs : list Verdict) :
  (if int_truthy (Z.of_nat (List.length rs))
   then result_map PyFloat
          (truediv_float_int (py_sum_float alg (map time_ms rs))
             (Z.of_nat (List.length rs)))
   else Ok (PyInt 0))
  = Ok (avg_of alg rs).
Proof.
  unfold int_truthy, truediv_float_int, avg_of.
  destruct (Z.of_nat (List.length rs) =? 0); reflexivity.
Qed.

(** The scorer never takes an error branch: closed form of its report. *)
Lemma score_closed_form (alg : sum_algorithm) (rs : list Verdict) :
  score alg rs =
  Ok {| total_requests := Z.of_nat (List.length rs);
        avg_response_time := avg_of alg rs;
        true_positives := confusion_count true true rs;
        false_negatives := confusion_count false true rs;
        false_positives := confusion_count true false rs;
        true_negatives := confusion_count false false rs;
        accuracy :=
          rate (confusion_count true true rs + confusion_count false false rs)
            (Z.of_nat (List.length rs));
        precision :=
          rate (confusion_count true true rs)
            (confusion_count true true rs + confusion_count true false rs);
        recall :=
          rate (confusion_count true true rs)
            (confusion_count true true rs + confusion_count false true rs) |}.
Proof.
  unfold score.
  rewrite guarded_truediv_float, !guarded_truediv_int.
  cbn [result_bind].
  rewrite <- (count_if_confusion true true), <- (count_if_confusion false true),
    <- (count_if_confusion true false), <- (count_if_confusion false false).
  reflexivity.
Qed.

Lemma rate_bounds (num den : Z) :
  0 <= num <= den -> (0 <= rate num den /\ rate num den <= 1)%Q.
Proof.
  intros [H0 H1]. unfold rate.
  destruct (den =? 0) eqn:E.
  - split; [apply Qle_refl | discriminate].
  - apply Z.eqb_neq in E.
    assert (Hd : (inject_Z 0 < inject_Z den)%Q)
      by (rewrite <- Zlt_Qlt; lia).
    split.
    + apply Qle_shift_div_l; [exact Hd|].
      rewrite Qmult_0_l. change 0%Q with (inject_Z 0).
      rewrite <- Zle_Qle. exact H0.
    + apply Qle_shift_div_r; [exact Hd|].
      rewrite Qmult_1_l. rewrite <- Zle_Qle. exact H1.
Qed.

Lemma confusion_count_nonneg (p e : bool) (rs : list Verdict) :
  0 <= confusion_count p e rs.
Proof. unfold confusion_count. lia. Qed.

Lemma filter_Permutation (f : Verdict -> bool) (l l' : list Verdict) :
  Permutation l l' -> Permutation (filter f l) (filter f l').
Proof.
  induction 1 as [|x l l' _ IH|x y l|l l' l'' _ IH1 _ IH2]; simpl.
  - constructor.
  - destruct (f x); [constructor|]; exact IH.
  - destruct (f x), (f y); try apply Permutation_refl.
    apply perm_swap.
  - eapply Permutation_trans; eassumption.
Qed.

Lemma confusion_count_Permutation (p e : bool) (l l' : list Verdict) :
  Permutation l l' -> confusion_count p e l = confusion_count p e l'.
Proof.
  intros H. unfold confusion_count. f_equal.
  apply Permutation_length, filter_Permutation, H.
Qed.

End ScorerFacts.

(** C3. For every sequence of verdicts the scorer returns a report whose
    four counts are the numbers of verdicts with (predicted, expected) equal
    to (true, true), (false, true), (true, false) and (false, false), and
    whose rates are accuracy = (tp + tn) / totalRequests, precision =
    tp / (tp + fp) and recall = tp / (tp + fn), each one 0 when its
    denominator is 0. *)
Theorem score_rates (alg : sum_algorithm) (verdicts : list Verdict) :
  exists r : Report,
    score alg verdicts = Ok r /\
    true_positives r = confusion_count true true verdicts /\
    false_negatives r = confusion_count false true verdicts /\
    false_positives r = confusion_count true false verdicts /\
    true_negatives r = confusion_count false false verdicts /\
    total_requests r = Z.of_nat (List.length verdicts) /\
    accuracy r
    = rate (true_positives r + true_negatives r) (total_requests r) /\
    precision r
    = rate (true_positives r) (true_positives r + false_positives r) /\
    recall r
    = rate (true_positives r) (true_positives r + false_negatives r).
Proof.
  eexists. split; [apply score_closed_form|].
  cbn [true_positives false_negatives false_positives true_negatives
       total_requests accuracy precision recall].
  repeat split; reflexivity.
Qed.

(** C4. For every sequence of verdicts, the empty one included, the four
    counts of the scorer add up to totalRequests, which is the length of the
    sequence. *)
Theorem score_counts_total (alg : sum_algorithm) (verdicts : list Verdict) :
  exists r : Report,
    score alg verdicts = Ok r /\
    true_positives r + false_negatives r + false_positives r
    + true_negatives r = total_requests r /\
    total_requests r = Z.of_nat (List.length verdicts).
Proof.
  eexists. split; [apply score_closed_form|].
  cbn [true_positives false_negatives false_positives true_negatives
       total_requests].
  split; [apply confusion_partition | reflexivity].
Qed.

(** C5. On the empty sequence the scorer yields totalRequests = 0, accuracy
    = precision = recall = 0 and average latency 0; and on no sequence at
    all does it raise: the ZeroDivisionError branch of each of its divisions
    is never reached. *)
Theorem score_empty_and_total (alg : sum_algorithm) :
  score alg [] =
  Ok {| total_requests := 0; avg_response_time := PyInt 0;
        true_positives := 0; false_negatives := 0;
        false_positives := 0; true_negatives := 0;
        accuracy := 0; precision := 0; recall := 0 |}
  /\ (forall (verdicts : list Verdict) (e : exn),
        score alg verdicts <> Raise e).
Proof.
  split; [reflexivity|].
  intros verdicts e. rewrite score_closed_form. discriminate.
Qed.

(** C10. For every sequence of verdicts the scorer returns a report whose
    accuracy, precision and recall lie between 0 and 1. *)
Theorem rates_within_unit_interval (alg : sum_algorithm) (verdicts : list Verdict) :
  exists r : Report,
    score alg verdicts = Ok r /\
    (0 <= accuracy r /\ accuracy r <= 1)%Q /\
    (0 <= precision r /\ precision r <= 1)%Q /\
    (0 <= recall r /\ recall r <= 1)%Q.
Proof.
  eexists. split; [apply score_closed_form|].
  cbn [accuracy precision recall].
  pose proof (confusion_partition verdicts) as Hsum.
  pose proof (confusion_count_nonneg true true verdicts).
  pose proof (confusion_count_nonneg false true verdicts).
  pose proof (confusion_count_nonneg true false verdicts).
  pose proof (confusion_count_nonneg false false verdicts).
  repeat split; apply rate_bounds; lia.
Qed.

(** Scenario B of the contract: one disposable email the provider misses
    and one normal email it passes. *)
Example score_scenario_B :
  exists r : Report,
    score LeftToRight [miss ms_0_1; pass ms_0_2] = Ok r
    /\ true_positives r = 0 /\ false_negatives r = 1
    /\ false_positives r = 0 /\ true_negatives r = 1
    /\ (accuracy r == 1 # 2)%Q /\ precision r = 0%Q /\ recall r = 0%Q.
Proof. eexists. repeat split. Qed.

(** C6, the claim as stated fails.  With the latencies 0.1, 0.2 and 0.3 ms
    taken in the two directions, the left-to-right sum gives two different
    average latencies, hence two different reports; and a sequence with
    latencies 2^53, 2^53, 1 and 1.0000000000000002 has a reordering with
    another average under both summation algorithms. *)
Lemma score_depends_on_order :
  Permutation [hit ms_0_1; hit ms_0_2; hit ms_0_3]
              [hit ms_0_3; hit ms_0_2; hit ms_0_1]
  /\ score LeftToRight [hit ms_0_1; hit ms_0_2; hit ms_0_3]
     <> score LeftToRight [hit ms_0_3; hit ms_0_2; hit ms_0_1]
  /\ Permutation [hit ms_2p53; hit ms_2p53; hit ms_1; hit ms_1_next]
                 [hit ms_2p53; hit ms_1_next; hit ms_1; hit ms_2p53]
  /\ (forall alg : sum_algorithm,
        score alg [hit ms_2p53; hit ms_2p53; hit ms_1; hit ms_1_next]
        <> score alg [hit ms_2p53; hit ms_1_next; hit ms_1; hit ms_2p53]).
Proof.
  split; [|split; [|split]].
  - apply Permutation_rev with (l := [hit ms_0_1; hit ms_0_2; hit ms_0_3]).
  - vm_compute. discriminate.
  - apply perm_skip.
    apply Permutation_rev with (l := [hit ms_2p53; hit ms_1; hit ms_1_next]).
  - intros [|]; vm_compute; discriminate.
Qed.

(** C6, amended.  The counts and the rates do not depend on the order: for
    every sequence of verdicts and every permutation of it the two reports
    have the same totalRequests, tp, fn, fp, tn, accuracy, precision and
    recall.  (The average latency is a floating-point sum taken in sequence
    order and is left out.) *)
Theorem score_Permutation (alg : sum_algorithm)
    (verdicts verdicts' : list Verdict) :
  Permutation verdicts verdicts' ->
  exists r r' : Report,
    score alg verdicts = Ok r /\ score alg verdicts' = Ok r' /\
    total_requests r = total_requests r' /\
    true_positives r = true_positives r' /\
    false_negatives r = false_negatives r' /\
    false_positives r = false_positives r' /\
    true_negatives r = true_negatives r' /\
    accuracy r = accuracy r' /\
    precision r = precision r' /\
    recall r = recall r'.
Proof.
  intros HP. do 2 eexists.
  split; [apply score_closed_form|].
  split; [apply score_closed_form|].
  cbn [true_positives false_negatives false_positives true_negatives
       total_requests accuracy precision recall].
  rewrite (Permutation_length HP).
  rewrite !(confusion_count_Permutation _ _ _ _ HP).
  repeat split; reflexivity.
Qed.

Lemma score_Permutation_witness :
  Permutation [hit ms_0_1; miss ms_0_2; hit ms_0_3]
              [hit ms_0_3; miss ms_0_2; hit ms_0_1]
  /\ exists r r' : Report,
       score LeftToRight [hit ms_0_1; miss ms_0_2; hit ms_0_3] = Ok r /\
       score LeftToRight [hit ms_0_3; miss ms_0_2; hit ms_0_1] = Ok r' /\
       total_requests r = total_requests r' /\
       true_positives r = true_positives r' /\
       false_negatives r = false_negatives r' /\
       false_positives r = false_positives r' /\
       true_negatives r = true_negatives r' /\
       accuracy r = accuracy r' /\
       precision r = precision r' /\
       recall r = recall r'.
Proof.
  split.
  - apply Permutation_rev with (l := [hit ms_0_1; miss ms_0_2; hit ms_0_3]).
  - apply (score_Permutation LeftToRight
             [hit ms_0_1; miss ms_0_2; hit ms_0_3]
             [hit ms_0_3; miss ms_0_2; hit ms_0_1]).
    apply Permutation_rev with (l := [hit ms_0_1; miss ms_0_2; hit ms_0_3]).
Defined.

(** ** Email-list loader *)

Section LoaderFacts.

Lemma str_truthy_nonempty (s : string) : str_truthy s = nonempty s.
Proof. destruct s; reflexivity. Qed.

Lemma stripped_lines_filter_map (f : list string) :
  stripped_lines f = filter nonempty (map strip f).
Proof.
  induction f as [|line rest IH]; [reflexivity|].
  cbn [stripped_lines map filter].
  rewrite <- str_truthy_nonempty, IH.
  destruct (str_truthy (strip line)); reflexivity.
Qed.

Lemma same_rstrip_cons (c : ascii) (l l' : string) :
  same_rstrip l l' -> same_rstrip (String c l) (String c l').
Proof. unfold same_rstrip. intros H. cbn [rstrip]. rewrite H. reflexivity. Qed.

Lemma same_rstrip_strip (l l' : string) :
  same_rstrip l l' -> strip l = strip l'.
Proof. unfold same_rstrip, strip. intros ->. reflexivity. Qed.

Lemma same_rstrip_LF : same_rstrip (String LF EmptyString) EmptyString.
Proof. reflexivity. Qed.

Lemma Forall2_head_cons (c : ascii) (ls ls' : list string) :
  Forall2 same_rstrip ls ls' ->
  Forall2 same_rstrip
    match ls with
    | [] => [String c EmptyString]
    | line :: lines => String c line :: lines
    end
    match ls' with
    | [] => [String c EmptyString]
    | line :: lines => String c line :: lines
    end.
Proof.
  intros [|l l' t t' Hl Ht].
  - constructor; [reflexivity | constructor].
  - constructor; [apply same_rstrip_cons, Hl | exact Ht].
Qed.

(** The lines the file object yields are the lines of the text, up to the
    line end each one carries. *)
Lemma iter_lines_split_lines_le (n : nat) :
  forall s : string,
    (String.length s <= n)%nat ->
    Forall2 same_rstrip (iter_lines (universal_newlines s)) (split_lines s).
Proof.
  induction n as [|n IH]; intros s Hlen.
  - destruct s; [constructor | simpl in Hlen; lia].
  - destruct s as [|c rest]; [constructor|].
    cbn [String.length] in Hlen.
    cbn [universal_newlines split_lines].
    destruct (Ascii.eqb c CR) eqn:Ecr.
    + apply Ascii.eqb_eq in Ecr. subst c.
      change (Ascii.eqb CR LF) with false. cbv iota.
      destruct rest as [|c' rest'].
      * cbn. constructor; [apply same_rstrip_LF | constructor].
      * cbn [String.length] in Hlen.
        destruct (Ascii.eqb c' LF) eqn:Elf.
        -- cbn [iter_lines]. change (Ascii.eqb LF LF) with true. cbv iota.
           constructor; [apply same_rstrip_LF|].
           apply IH. lia.
        -- cbn [iter_lines]. change (Ascii.eqb LF LF) with true. cbv iota.
           constructor; [apply same_rstrip_LF|].
           apply IH. cbn [String.length]. lia.
    + cbn [iter_lines].
      destruct (Ascii.eqb c LF) eqn:Elf.
      * constructor.
        -- apply Ascii.eqb_eq in Elf. subst c. apply same_rstrip_LF.
        -- apply IH. lia.
      * apply Forall2_head_cons. apply IH. lia.
Qed.

Lemma iter_lines_split_lines (s : string) :
  Forall2 same_rstrip (iter_lines (universal_newlines s)) (split_lines s).
Proof. apply (iter_lines_split_lines_le (String.length s)). lia. Qed.

Lemma Forall2_same_rstrip_strip (ls ls' : list string) :
  Forall2 same_rstrip ls ls' -> map strip ls = map strip ls'.
Proof.
  induction 1 as [|l l' t t' Hl _ IH]; [reflexivity|].
  cbn [map]. rewrite IH, (same_rstrip_strip _ _ Hl). reflexivity.
Qed.

Lemma lstrip_idempotent (s : string) : lstrip (lstrip s) = lstrip s.
Proof.
  induction s as [|c rest IH]; [reflexivity|].
  cbn [lstrip]. destruct (isspace c) eqn:E; [exact IH|].
  cbn [lstrip]. rewrite E. reflexivity.
Qed.

Lemma rstrip_idempotent (s : string) : rstrip (rstrip s) = rstrip s.
Proof.
  induction s as [|c rest IH]; [reflexivity|].
  cbn [rstrip]. destruct (rstrip rest) as [|c' r] eqn:E.
  - destruct (isspace c) eqn:Ec; [reflexivity|].
    cbn [rstrip]. rewrite Ec. reflexivity.
  - change (rstrip (String c (String c' r))) with
      match rstrip (String c' r) with
      | EmptyString =>
          if isspace c then EmptyString else String c EmptyString
      | String a r' => String c (String a r')
      end.
    rewrite IH. reflexivity.
Qed.

Lemma rstrip_lstrip (s : string) : rstrip (lstrip s) = lstrip (rstrip s).
Proof.
  induction s as [|c rest IH]; [reflexivity|].
  cbn [lstrip]. destruct (isspace c) eqn:Ec.
  - rewrite IH. cbn [rstrip].
    destruct (rstrip rest) as [|c' r]; [rewrite Ec; reflexivity|].
    cbn [lstrip]. rewrite Ec. reflexivity.
  - cbn [rstrip].
    destruct (rstrip rest) as [|c' r]; rewrite ?Ec; cbn [lstrip];
      rewrite Ec; reflexivity.
Qed.

(** A stripped string has no whitespace left at either end. *)
Lemma strip_trimmed (s : string) :
  lstrip (strip s) = strip s /\ rstrip (strip s) = strip s.
Proof.
  unfold strip. split.
  - apply lstrip_idempotent.
  - rewrite rstrip_lstrip, rstrip_idempotent. reflexivity.
Qed.

End LoaderFacts.

(** C9. For every readable file, [load_emails] returns the lines of the
    file with the surrounding whitespace trimmed, without the lines that are
    empty after trimming, in the order of the file. *)
Theorem load_emails_trimmed_lines (fs : FileSystem) (path content : string) :
  fs path = Some content ->
  load_emails fs path
  = Ok (filter nonempty (map strip (split_lines content))).
Proof.
  intros Hfile. unfold load_emails.
  rewrite Hfile, stripped_lines_filter_map.
  rewrite (Forall2_same_rstrip_strip _ _ (iter_lines_split_lines content)).
  reflexivity.
Qed.

Lemma load_emails_trimmed_lines_witness :
  sample_fs "missed.txt" = Some sample_content
  /\ load_emails sample_fs "missed.txt"
     = Ok (filter nonempty (map strip (split_lines sample_content))).
Proof.
  split; [reflexivity|].
  apply (load_emails_trimmed_lines sample_fs "missed.txt" sample_content).
  reflexivity.
Defined.

(** The emails loaded from the sample file. *)
Example load_emails_sample :
  load_emails sample_fs "missed.txt"
  = Ok ["a@mailinator.com"; "b@gmail.com"; "c@yopmail.com"].
Proof. reflexivity. Qed.

(** A file that cannot be read is fatal. *)
Example load_emails_missing :
  load_emails sample_fs "normal.txt" = Raise OSError.
Proof. reflexivity. Qed.

(** ** Request parameters *)

Section ParamsFacts.

Lemma dict_set_fresh {V : Type} (k : string) (v : V) (d : dict V) :
  ~ In k (dict_keys d) -> dict_set k v d = d ++ [(k, v)].
Proof.
  induction d as [|[k' v'] rest IH]; intros Hk; [reflexivity|].
  cbn [dict_set]. destruct (String.eqb k k') eqn:E.
  - apply String.eqb_eq in E. subst k'. exfalso. apply Hk. left. reflexivity.
  - rewrite IH; [reflexivity|]. intros Hin. apply Hk. right. exact Hin.
Qed.

Lemma build_params_from (template : dict (option string)) (email : string) :
  forall acc : dict string,
    NoDup (dict_keys acc ++ dict_keys template) ->
    fold_left
      (fun (params : dict string) (kv : string * option string) =>
         match snd kv with
         | None => dict_set (fst kv) email params
         | Some v => dict_set (fst kv) v params
         end)
      template acc
    = acc ++ map (substitute email) template.
Proof.
  induction template as [|[k v] rest IH]; intros acc Hnd.
  - cbn. rewrite app_nil_r. reflexivity.
  - cbn [fold_left fst snd map].
    assert (Hfresh : ~ In k (dict_keys acc)).
    { cbn [dict_keys map fst] in Hnd. apply NoDup_remove_2 in Hnd.
      intros Hin. apply Hnd. apply in_or_app. left. exact Hin. }
    assert (Hrest : forall x : string,
               NoDup (dict_keys (acc ++ [(k, x)]) ++ dict_keys rest)).
    { intros x. unfold dict_keys in *. rewrite map_app. cbn [map fst].
      rewrite <- app_assoc. exact Hnd. }
    destruct v as [v|]; rewrite dict_set_fresh by exact Hfresh;
      rewrite IH by apply Hrest; rewrite <- app_assoc; reflexivity.
Qed.

Lemma dict_get_map_substitute (email k : string)
    (template : dict (option string)) :
  dict_get k (map (substitute email) template)
  = option_map (fun v => match v with None => email | Some s => s end)
      (dict_get k template).
Proof.
  induction template as [|[k' v] rest IH]; [reflexivity|].
  cbn [map substitute fst snd dict_get].
  destruct (String.eqb k k'); [reflexivity | exact IH].
Qed.

End ParamsFacts.

(** C7. For every provider and email, the request parameters are a copy of
    the provider's parameter template in which every entry whose value is
    None holds the email and every other entry is unchanged. *)
Theorem build_params_substitutes (provider : Provider) (email : string) :
  NoDup (dict_keys (provider_params provider)) ->
  build_params (provider_params provider) email
  = map (substitute email) (provider_params provider)
  /\ (forall k : string,
        dict_get k (build_params (provider_params provider) email)
        = match dict_get k (provider_params provider) with
          | Some None => Some email
          | Some (Some v) => Some v
          | None => None
          end).
Proof.
  intros Hnd.
  assert (E : build_params (provider_params provider) email
              = map (substitute email) (provider_params provider)).
  { unfold build_params. rewrite build_params_from; [reflexivity|].
    exact Hnd. }
  split; [exact E|].
  intros k. rewrite E, dict_get_map_substitute.
  destruct (dict_get k (provider_params provider)) as [[v|]|]; reflexivity.
Qed.

Lemma build_params_substitutes_witness :
  NoDup (dict_keys (provider_params (sample_provider 4)))
  /\ (build_params (provider_params (sample_provider 4)) "a@mailinator.com"
      = map (substitute "a@mailinator.com")
          (provider_params (sample_provider 4))
      /\ (forall k : string,
            dict_get k
              (build_params (provider_params (sample_provider 4))
                 "a@mailinator.com")
            = match dict_get k (provider_params (sample_provider 4)) with
              | Some None => Some "a@mailinator.com"
              | Some (Some v) => Some v
              | None => None
              end)).
Proof.
  split.
  - repeat constructor; cbn; intuition discriminate.
  - apply (build_params_substitutes (sample_provider 4) "a@mailinator.com").
    repeat constructor; cbn; intuition discriminate.
Defined.

(** The parameters sent to Reoon for one email. *)
Example build_params_Reoon :
  build_params (provider_params (sample_provider 4)) "a@mailinator.com"
  = [("email", "a@mailinator.com"); ("key", "secret"); ("mode", "quick")].
Proof. reflexivity. Qed.

(** C8. The parameters built for the "Mail-Check" descriptor are
    {"domain": "mailinator.com"} whatever the email, hence the same for any
    two emails; the parameters built for every other descriptor of the
    registry hold the email under test. *)
Theorem mail_check_params_fixed (getenv : string -> option string) :
  (exists provider : Provider,
     In provider (PROVIDERS getenv) /\ name provider = Some "Mail-Check")
  /\ Forall
       (fun provider : Provider =>
          if is_named "Mail-Check" provider
          then (forall email : string,
                  build_params (provider_params provider) email
                  = [("domain", "mailinator.com")])
               /\ (forall email email' : string,
                     build_params (provider_params provider) email
                     = build_params (provider_params provider) email')
          else forall email : string,
                 dict_get "email"
                   (build_params (provider_params provider) email)
                 = Some email)
       (PROVIDERS getenv).
Proof.
  split.
  - eexists. split; [do 3 right; left; reflexivity | reflexivity].
  - unfold PROVIDERS.
    repeat constructor; cbn; intros;
      repeat match goal with
             | |- context [getenv ?k] => destruct (getenv k)
             end; reflexivity.
Qed.


(** ** Provider registry *)

Section RegistryFacts.

Lemma py_get_cases (resp : json) (k : string) (default : json) :
  (exists v : json, py_get resp k default = Ok v)
  \/ py_get resp k default = Raise AttributeError.
Proof. destruct resp; cbn; eauto. Qed.

Lemma py_lower_cases (v : json) :
  (exists v' : json, py_lower v = Ok v')
  \/ py_lower v = Raise AttributeError.
Proof. destruct v; cbn; eauto. Qed.

End RegistryFacts.

(** A classifier that reads one top-level key which the object lacks
    answers with its default, which is false. *)
Ltac missing_key_false d :=
  cbn [py_get result_bind];
  match goal with
  | |- context [dict_get ?k d] =>
      destruct (dict_get k d) as [[]|]; try discriminate
  end;
  eexists; split; reflexivity.

(** C2, the claim as stated fails.  The classifiers are not total over the
    decoded JSON values and a field of an unexpected type need not give
    false: Bouncer raises on a [domain] that is a string, Debounce raises on
    a [disposable] that is a boolean, Emailable raises on a response that is
    a list, and Emailable answers true on the string ["no"]. *)
Lemma map_func_not_total :
  map_func (sample_provider 0) (JDict [("domain", JStr "mailinator.com")])
  = Raise AttributeError
  /\ map_func (sample_provider 5) (JDict [("disposable", JBool true)])
     = Raise AttributeError
  /\ map_func (sample_provider 1) (JList []) = Raise AttributeError
  /\ result_map truthy
       (map_func (sample_provider 1) (JDict [("disposable", JStr "no")]))
     = Ok true.
Proof. repeat split. Qed.

(** C2, amended.  For every descriptor of the registry and every decoded
    JSON object, the classifier does not throw on a missing key: when the
    field it reads is missing it returns, and the verdict is false.  On any
    decoded JSON value the only exception it can raise is AttributeError
    (a value without the method called on it). *)
Theorem map_func_missing_field (getenv : string -> option string)
    (provider : Provider) (d : dict json) :
  In provider (PROVIDERS getenv) ->
  field_missing provider d = true ->
  (exists v : json,
     map_func provider (JDict d) = Ok v /\ truthy v = false)
  /\ (forall resp : json,
        (exists v : json, map_func provider resp = Ok v)
        \/ map_func provider resp = Raise AttributeError).
Proof.
  intros Hin Hmiss.
  unfold PROVIDERS in Hin. cbn [In] in Hin.
  repeat destruct Hin as [Hin|Hin]; try contradiction; subst provider;
    cbn [map_func]; unfold field_missing in Hmiss; cbn in Hmiss;
    (split; [|intros resp]).
  - (* Bouncer, missing field *)
    unfold Bouncer_map_func. cbn [py_get result_bind].
    destruct (dict_get "domain" d) as [[| | | | | |inner]|];
      try discriminate; cbn [py_get result_bind].
    + destruct (dict_get "disposable" inner); [discriminate|].
      eexists; split; reflexivity.
    + eexists; split; reflexivity.
  - (* Bouncer, any value *)
    unfold Bouncer_map_func.
    destruct (py_get_cases resp "domain" (JDict [])) as [[v ->]| ->];
      cbn [result_bind]; [|right; reflexivity].
    destruct (py_get_cases v "disposable" JNull) as [[v' ->]| ->];
      cbn [result_bind]; eauto.
  - unfold Emailable_map_func. missing_key_false d.
  - apply py_get_cases.
  - unfold Bouncify_map_func. missing_key_false d.
  - unfold Bouncify_map_func.
    destruct (py_get_cases resp "disposable" (JInt 0)) as [[v ->]| ->];
      cbn [result_bind]; eauto.
  - unfold MailCheck_map_func. missing_key_false d.
  - apply py_get_cases.
  - unfold Reoon_map_func. missing_key_false d.
  - apply py_get_cases.
  - unfold Debounce_map_func. missing_key_false d.
  - (* Debounce, any value *)
    unfold Debounce_map_func.
    destruct (py_get_cases resp "disposable" (JStr "false")) as [[v ->]| ->];
      cbn [result_bind]; [|right; reflexivity].
    destruct (py_lower_cases v) as [[v' ->]| ->]; cbn [result_bind]; eauto.
  - unfold Kickbox_map_func. missing_key_false d.
  - apply py_get_cases.
Qed.

Lemma map_func_missing_field_witness :
  In (sample_provider 0) (PROVIDERS sample_getenv)
  /\ field_missing (sample_provider 0) [("domain", JDict [("name", JNull)])]
     = true
  /\ ((exists v : json,
         map_func (sample_provider 0)
           (JDict [("domain", JDict [("name", JNull)])]) = Ok v
         /\ truthy v = false)
      /\ (forall resp : json,
            (exists v : json, map_func (sample_provider 0) resp = Ok v)
            \/ map_func (sample_provider 0) resp = Raise AttributeError)).
Proof.
  split; [left; reflexivity|].
  split; [reflexivity|].
  apply (map_func_missing_field sample_getenv (sample_provider 0)
           [("domain", JDict [("name", JNull)])]).
  - left; reflexivity.
  - reflexivity.
Defined.

(** ** Request runner *)

Section RunnerFacts.

Variable provider : Provider.
Variable expected_flag : bool.

Lemma request_by_method (method url : string)
    (hs : dict (option string)) (ps : dict string) (timeout : Z) :
  (if String.eqb method "GET" then requests_get url hs ps timeout
   else requests_request method url hs ps timeout)
  = requests_request method url hs ps timeout.
Proof.
  destruct (String.eqb method "GET") eqn:E; [|reflexivity].
  apply String.eqb_eq in E. subst method. reflexivity.
Qed.

Lemma test_email_closed_form (email : string) (w : World) :
  test_email provider expected_flag email w
  = (Ok (fst (step_verdict provider expected_flag email w)),
     snd (step_verdict provider expected_flag email w)).
Proof.
  unfold test_email. rewrite request_by_method.
  unfold step_verdict, request_of, bind, try_except, time_time,
    requests_request, lift, ret, after.
  cbn [clock ticks network sent].
  destruct (network w (List.length (sent w)) _) as [resp|e];
    cbn [clock ticks network sent fst snd]; [|reflexivity].
  destruct (resp_json resp) as [data|e];
    cbn [clock ticks network sent fst snd]; [|reflexivity].
  destruct (map_func provider data) as [flag|e];
    cbn [clock ticks network sent fst snd]; reflexivity.
Qed.

(** One iteration never raises, whatever the request does. *)
Lemma test_email_verdict (email : string) (w : World) :
  exists (v : Verdict) (w1 : World),
    test_email provider expected_flag email w = (Ok v, w1)
    /\ expected v = expected_flag
    /\ predicted v
       = match request_outcome provider email w with
         | Ok flag => truthy flag
         | Raise _ => false
         end
    /\ (ticks w < ticks w1)%nat
    /\ time_ms v
       = elapsed_ms (clock w (ticks w1 - 1)%nat) (clock w (ticks w))
    /\ sent w1 = sent w ++ [request_of provider email]
    /\ clock w1 = clock w /\ network w1 = network w.
Proof.
  do 2 eexists. split; [apply test_email_closed_form|].
  unfold step_verdict, request_outcome, after.
  destruct (network w (List.length (sent w)) (request_of provider email))
    as [resp|e]; cbn [result_bind].
  2:{ cbn. replace (ticks w - 0)%nat with (ticks w) by lia.
      repeat split; lia. }
  destruct (resp_json resp) as [data|e]; cbn [result_bind].
  2:{ cbn. replace (ticks w - 0)%nat with (ticks w) by lia.
      repeat split; lia. }
  destruct (map_func provider data) as [flag|e].
  - cbn. replace (ticks w - 0)%nat with (ticks w) by lia.
    repeat split; lia.
  - cbn. replace (ticks w - 0)%nat with (ticks w) by lia.
    repeat split; lia.
Qed.

Lemma test_provider_loop_runs (email_list : list string) :
  forall (results : list Verdict) (w : World),
    exists (vs : list Verdict) (w' : World),
      test_provider_loop provider expected_flag email_list results w
      = (Ok (results ++ vs), w')
      /\ runs provider expected_flag email_list w vs w'
      /\ List.length vs = List.length email_list.
Proof.
  induction email_list as [|email rest IH]; intros results w.
  - exists [], w. cbn. rewrite app_nil_r.
    repeat split. constructor.
  - destruct (test_email_verdict email w) as (v & w1 & Hv & _).
    destruct (IH (results ++ [v]) w1) as (vs & w' & Hloop & Hruns & Hlen).
    exists (v :: vs), w'.
    cbn [test_provider_loop]. unfold bind. rewrite Hv, Hloop.
    rewrite <- app_assoc. cbn [app List.length].
    repeat split; [econstructor; eassumption | lia].
Qed.

End RunnerFacts.

(** C1, the claim as stated fails.  A response with a status outside 2xx is
    not treated as an error: the program never looks at the status, so the
    JSON body of a 500 response is classified like any other, and the
    verdict can be predicted = true. *)
Lemma non_2xx_is_classified :
  network server_error_world 0 (request_of (sample_provider 1) "b@gmail.com")
  = Ok {| status_code := 500;
          resp_json := Ok (JDict [("disposable", JBool true)]) |}
  /\ fst (test_provider (sample_provider 1) ["b@gmail.com"] false
            server_error_world)
     = Ok [{| predicted := true; expected := false;
              time_ms := Binary64.of_int 1000 |}].
Proof. split; reflexivity. Qed.

(** C1, amended.  For every provider, email list and expected label,
    [test_provider] returns, without raising, exactly one verdict per input
    email, in input order.  Each iteration returns a verdict with the
    expected label and the time elapsed between the reading of the clock
    before the request and the last one taken; when the request raises
    (network error, timeout), when [resp.json()] raises (body that is not
    JSON) or when [map_func] raises, the verdict has predicted = false and
    the last reading is the one taken at the failure.  A response is
    classified whatever its status. *)
Theorem test_provider_verdicts (provider : Provider)
    (email_list : list string) (expected_flag : bool) (w : World) :
  (exists (results : list Verdict) (w' : World),
     test_provider provider email_list expected_flag w = (Ok results, w')
     /\ List.length results = List.length email_list
     /\ runs provider expected_flag email_list w results w')
  /\ (forall (email : string) (w0 : World),
        exists (v : Verdict) (w1 : World),
          test_email provider expected_flag email w0 = (Ok v, w1)
          /\ expected v = expected_flag
          /\ predicted v
             = match request_outcome provider email w0 with
               | Ok flag => truthy flag
               | Raise _ => false
               end
          /\ (ticks w0 < ticks w1)%nat
          /\ time_ms v
             = elapsed_ms (clock w0 (ticks w1 - 1)%nat) (clock w0 (ticks w0))
          /\ sent w1 = sent w0 ++ [request_of provider email]
          /\ clock w1 = clock w0 /\ network w1 = network w0).
Proof.
  split.
  - destruct (test_provider_loop_runs provider expected_flag email_list [] w)
      as (vs & w' & Hloop & Hruns & Hlen).
    exists vs, w'. unfold test_provider. rewrite Hloop.
    repeat split; assumption.
  - intros email w0. apply test_email_verdict.
Qed.

(** Every request times out: all verdicts are predicted = false, with the
    time up to each timeout. *)
Example test_provider_timeouts :
  fst (test_provider (sample_provider 0) ["a@mailinator.com"; "b@gmail.com"]
         true timeout_world)
  = Ok [{| predicted := false; expected := true;
           time_ms := Binary64.of_int 1000 |};
        {| predicted := false; expected := true;
           time_ms := Binary64.of_int 1000 |}].
Proof. reflexivity. Qed.

(** A body that is not JSON, and a JSON body on which the classifier
    raises: the clock is read once more, at the failure. *)
Example test_provider_not_json :
  fst (test_provider (sample_provider 0) ["a@mailinator.com"] true html_world)
  = Ok [{| predicted := false; expected := true;
           time_ms := Binary64.of_int 2000 |}].
Proof. reflexivity. Qed.

Example test_provider_classify_raises :
  fst (test_provider (sample_provider 5) ["a@mailinator.com"] true list_world)
  = Ok [{| predicted := false; expected := true;
           time_ms := Binary64.of_int 2000 |}].
Proof. reflexivity. Qed.

(* ================================================================== *)
(** * Further properties *)

(** ** Request runner: requests, clock and composition *)

Section RunsFacts.

Variable provider : Provider.
Variable expected_flag : bool.

(** An iteration that ended in [(v, w1)] is the one [test_email_verdict]
    describes. *)
Lemma test_email_inv (email : string) (w w1 : World) (v : Verdict) :
  test_email provider expected_flag email w = (Ok v, w1) ->
  expected v = expected_flag
  /\ predicted v
     = match request_outcome provider email w with
       | Ok flag => truthy flag
       | Raise _ => false
       end
  /\ (ticks w + 2 <= ticks w1 <= ticks w + 3)%nat
  /\ sent w1 = sent w ++ [request_of provider email]
  /\ clock w1 = clock w /\ network w1 = network w.
Proof.
  rewrite test_email_closed_form. intros H.
  injection H as Hv Hw. subst v w1.
  unfold step_verdict, request_outcome, after.
  destruct (network w (List.length (sent w)) (request_of provider email))
    as [resp|e]; cbn [result_bind]; [|cbn; repeat split; lia].
  destruct (resp_json resp) as [data|e]; cbn [result_bind];
    [|cbn; repeat split; lia].
  destruct (map_func provider data) as [flag|e]; cbn; repeat split; lia.
Qed.

Lemma runs_loop (email_list : list string) (w w' : World)
    (vs : list Verdict) :
  runs provider expected_flag email_list w vs w' ->
  forall results : list Verdict,
    test_provider_loop provider expected_flag email_list results w
    = (Ok (results ++ vs), w').
Proof.
  induction 1 as [w|email rest w w1 w' v vs Hv _ IH]; intros results.
  - cbn. rewrite app_nil_r. reflexivity.
  - cbn [test_provider_loop]. unfold bind. rewrite Hv, IH, <- app_assoc.
    reflexivity.
Qed.

Lemma runs_test_provider (email_list : list string) (w w' : World)
    (vs : list Verdict) :
  runs provider expected_flag email_list w vs w' ->
  test_provider provider email_list expected_flag w = (Ok vs, w').
Proof. intros H. unfold test_provider. apply (runs_loop _ _ _ _ H []). Qed.

Lemma test_provider_runs (email_list : list string) (w : World) :
  exists (vs : list Verdict) (w' : World),
    test_provider provider email_list expected_flag w = (Ok vs, w')
    /\ runs provider expected_flag email_list w vs w'.
Proof.
  destruct (test_provider_loop_runs provider expected_flag email_list [] w)
    as (vs & w' & Hloop & Hruns & _).
  exists vs, w'. split; [exact Hloop | exact Hruns].
Qed.

Lemma runs_length (email_list : list string) (w w' : World)
    (vs : list Verdict) :
  runs provider expected_flag email_list w vs w' ->
  List.length vs = List.length email_list.
Proof. induction 1; cbn; congruence. Qed.

Lemma runs_world (email_list : list string) (w w' : World)
    (vs : list Verdict) :
  runs provider expected_flag email_list w vs w' ->
  sent w' = sent w ++ map (request_of provider) email_list
  /\ clock w' = clock w /\ network w' = network w
  /\ (ticks w + 2 * List.length email_list <= ticks w'
      <= ticks w + 3 * List.length email_list)%nat.
Proof.
  induction 1 as [w|email rest w w1 w' v vs Hv _ IH].
  - cbn. rewrite app_nil_r. repeat split; lia.
  - apply test_email_inv in Hv.
    destruct Hv as (_ & _ & Ht & Hs & Hc & Hn).
    destruct IH as (IHs & IHc & IHn & IHt).
    cbn [map List.length].
    rewrite IHs, Hs, <- app_assoc.
    repeat split; try congruence; lia.
Qed.

Lemma runs_expected (email_list : list string) (w w' : World)
    (vs : list Verdict) :
  runs provider expected_flag email_list w vs w' ->
  Forall (fun v => expected v = expected_flag) vs.
Proof.
  induction 1 as [w|email rest w w1 w' v vs Hv _ IH]; constructor.
  - apply test_email_inv in Hv. apply Hv.
  - exact IH.
Qed.

Lemma runs_app (l1 l2 : list string) (w w1 w2 : World)
    (v1 v2 : list Verdict) :
  runs provider expected_flag l1 w v1 w1 ->
  runs provider expected_flag l2 w1 v2 w2 ->
  runs provider expected_flag (l1 ++ l2) w (v1 ++ v2) w2.
Proof.
  induction 1 as [w|email rest w wa wb v vs Hv _ IH]; intros H2.
  - exact H2.
  - cbn [app]. econstructor; [exact Hv | apply IH, H2].
Qed.

(** When every request raises, every verdict is predicted = false. *)
Lemma runs_all_fail (email_list : list string) (w w' : World)
    (vs : list Verdict) :
  (forall (n : nat) (req : Request), exists e : exn, network w n req = Raise e) ->
  runs provider expected_flag email_list w vs w' ->
  Forall (fun v => predicted v = false) vs.
Proof.
  intros Hfail H.
  induction H as [w|email rest w w1 w' v vs Hv _ IH]; constructor.
  - apply test_email_inv in Hv. destruct Hv as (_ & Hp & _).
    rewrite Hp. unfold request_outcome.
    destruct (Hfail (List.length (sent w)) (request_of provider email))
      as [e ->].
    reflexivity.
  - apply IH. apply test_email_inv in Hv.
    destruct Hv as (_ & _ & _ & _ & _ & Hn). rewrite Hn. exact Hfail.
Qed.

Lemma step_verdict_flag (f1 f2 : bool) (email : string) (w : World) :
  snd (step_verdict provider f1 email w)
  = snd (step_verdict provider f2 email w)
  /\ predicted (fst (step_verdict provider f1 email w))
     = predicted (fst (step_verdict provider f2 email w))
  /\ time_ms (fst (step_verdict provider f1 email w))
     = time_ms (fst (step_verdict provider f2 email w)).
Proof.
  unfold step_verdict.
  destruct (network w (List.length (sent w)) (request_of provider email))
    as [resp|e]; [|repeat split].
  destruct (resp_json resp) as [data|e]; [|repeat split].
  destruct (map_func provider data) as [flag|e]; repeat split.
Qed.

End RunsFacts.

Lemma runs_flag (provider : Provider) (f1 f2 : bool)
    (email_list : list string) (w w' : World) (vs : list Verdict) :
  runs provider f1 email_list w vs w' ->
  exists vs' : list Verdict,
    runs provider f2 email_list w vs' w'
    /\ map predicted vs' = map predicted vs
    /\ map time_ms vs' = map time_ms vs.
Proof.
  induction 1 as [w|email rest w w1 w' v vs Hv _ (vs' & IH & IHp & IHt)].
  - exists []. repeat split. constructor.
  - rewrite test_email_closed_form in Hv. injection Hv as Hv Hw.
    destruct (step_verdict_flag provider f1 f2 email w) as (Es & Ep & Et).
    exists (fst (step_verdict provider f2 email w) :: vs').
    split; [|cbn [map]; split; congruence].
    econstructor; [|exact IH].
    rewrite test_email_closed_form. congruence.
Qed.

(** X1. [test_provider] sends exactly one request per email, in the order of
    the list and each built from its email alone; it leaves the clock
    function and the network as they were. *)
Theorem test_provider_requests (provider : Provider)
    (email_list : list string) (expected_flag : bool) (w : World) :
  let w' := snd (test_provider provider email_list expected_flag w) in
  sent w' = sent w ++ map (request_of provider) email_list
  /\ clock w' = clock w /\ network w' = network w.
Proof.
  destruct (test_provider_runs provider expected_flag email_list w)
    as (vs & w' & Hrun & Hruns).
  rewrite Hrun. cbn [snd].
  destruct (runs_world _ _ _ _ _ _ Hruns) as (Hs & Hc & Hn & _).
  repeat split; assumption.
Qed.

(** X2. [test_provider] reads the clock twice or three times per email:
    once before the request, once after the response or in the handler,
    and once more in the handler when the failure comes after the
    response. *)
Theorem test_provider_clock_reads (provider : Provider)
    (email_list : list string) (expected_flag : bool) (w : World) :
  let w' := snd (test_provider provider email_list expected_flag w) in
  (ticks w + 2 * List.length email_list <= ticks w'
   <= ticks w + 3 * List.length email_list)%nat.
Proof.
  destruct (test_provider_runs provider expected_flag email_list w)
    as (vs & w' & Hrun & Hruns).
  rewrite Hrun. cbn [snd].
  apply (runs_world _ _ _ _ _ _ Hruns).
Qed.

(** X3. Running [test_provider] on a concatenation is running it on the
    first list and then, in the world this leaves, on the second: the
    verdicts are the two lists of verdicts, concatenated. *)
Theorem test_provider_app (provider : Provider) (l1 l2 : list string)
    (expected_flag : bool) (w : World) :
  exists (v1 v2 : list Verdict) (w1 w2 : World),
    test_provider provider l1 expected_flag w = (Ok v1, w1)
    /\ test_provider provider l2 expected_flag w1 = (Ok v2, w2)
    /\ test_provider provider (l1 ++ l2) expected_flag w = (Ok (v1 ++ v2), w2).
Proof.
  destruct (test_provider_runs provider expected_flag l1 w)
    as (v1 & w1 & H1 & R1).
  destruct (test_provider_runs provider expected_flag l2 w1)
    as (v2 & w2 & H2 & R2).
  exists v1, v2, w1, w2. repeat split; try assumption.
  apply runs_test_provider. eapply runs_app; eassumption.
Qed.

(** X4. When every request raises (the network is down), [test_provider]
    still returns one verdict per email, each with predicted = false and
    the expected label. *)
Theorem test_provider_network_down (provider : Provider)
    (email_list : list string) (expected_flag : bool) (w : World) :
  (forall (n : nat) (req : Request),
      exists e : exn, network w n req = Raise e) ->
  exists (results : list Verdict) (w' : World),
    test_provider provider email_list expected_flag w = (Ok results, w')
    /\ List.length results = List.length email_list
    /\ Forall (fun v => predicted v = false /\ expected v = expected_flag)
         results.
Proof.
  intros Hfail.
  destruct (test_provider_runs provider expected_flag email_list w)
    as (vs & w' & Hrun & Hruns).
  exists vs, w'. split; [exact Hrun|].
  split; [eapply runs_length; eassumption|].
  pose proof (runs_all_fail _ _ _ _ _ _ Hfail Hruns) as Hp.
  pose proof (runs_expected _ _ _ _ _ _ Hruns) as He.
  rewrite Forall_forall in *. intros v Hv. split; auto.
Qed.

Lemma test_provider_network_down_witness :
  (forall (n : nat) (req : Request),
      exists e : exn, network timeout_world n req = Raise e)
  /\ exists (results : list Verdict) (w' : World),
       test_provider (sample_provider 0) ["a@mailinator.com"; "b@gmail.com"]
         true timeout_world = (Ok results, w')
       /\ List.length results = 2%nat
       /\ Forall (fun v => predicted v = false /\ expected v = true) results.
Proof.
  split.
  - intros n req. exists Timeout. reflexivity.
  - apply (test_provider_network_down (sample_provider 0)
             ["a@mailinator.com"; "b@gmail.com"] true timeout_world).
    intros n req. exists Timeout. reflexivity.
Defined.

(** X5. The expected label has no influence on what [test_provider] does:
    with either label it sends the same requests, leaves the same world and
    returns verdicts with the same predictions and the same latencies. *)
Theorem test_provider_label_blind (provider : Provider)
    (email_list : list string) (w : World) :
  exists (vt vf : list Verdict) (w' : World),
    test_provider provider email_list true w = (Ok vt, w')
    /\ test_provider provider email_list false w = (Ok vf, w')
    /\ map predicted vt = map predicted vf
    /\ map time_ms vt = map time_ms vf.
Proof.
  destruct (test_provider_runs provider true email_list w)
    as (vt & w' & Ht & Rt).
  destruct (runs_flag provider true false _ _ _ _ Rt) as (vf & Rf & Ep & Et).
  exists vt, vf, w'. repeat split; try congruence.
  apply runs_test_provider, Rf.
Qed.

(** ** Provider registry: what each classifier answers *)

Section ClassifierFacts.

Lemma py_eq_str_true (v : json) (s : string) :
  py_eq_str v s = true <-> v = JStr s.
Proof.
  split.
  - destruct v; cbn; try discriminate.
    intros H. apply String.eqb_eq in H. congruence.
  - intros ->. cbn. apply String.eqb_refl.
Qed.

Lemma py_eq_int_true (v : json) (n : Z) :
  py_eq_int v n = true
  <-> (v = JInt n
       \/ (exists b : bool, v = JBool b /\ (if b then 1 else 0) = n)
       \/ (exists f : Binary64.float,
              v = JFloat f
              /\ Binary64.eqb f (Binary64.of_int n) = true)).
Proof.
  split.
  - destruct v; cbn; try discriminate; intros H.
    + right; left. exists b. split; [reflexivity|]. apply Z.eqb_eq, H.
    + left. apply Z.eqb_eq in H. congruence.
    + right; right. eauto.
  - intros [->|[(b & -> & Hb)|(f & -> & Hf)]]; cbn.
    + apply Z.eqb_refl.
    + apply Z.eqb_eq, Hb.
    + exact Hf.
Qed.

End ClassifierFacts.

(** X6. Bouncer answers true exactly on an object whose [domain] is an
    object whose [disposable] is the string ["yes"]. *)
Theorem Bouncer_true_iff (resp : json) :
  Bouncer_map_func resp = Ok (JBool true)
  <-> exists d inner : dict json,
        resp = JDict d
        /\ dict_get "domain" d = Some (JDict inner)
        /\ dict_get "disposable" inner = Some (JStr "yes").
Proof.
  unfold Bouncer_map_func. split.
  - destruct resp as [| | | | | |d]; cbn; try discriminate.
    destruct (dict_get "domain" d) as [[| | | | | |inner]|] eqn:Ed;
      cbn; try discriminate.
    destruct (dict_get "disposable" inner) as [v|] eqn:E;
      [|cbn; discriminate].
    intros H. injection H as H. apply py_eq_str_true in H. subst v.
    exists d, inner. repeat split; assumption.
  - intros (d & inner & -> & Hd & Hi). cbn. rewrite Hd. cbn. rewrite Hi.
    reflexivity.
Qed.

(** X7. Debounce answers true exactly on an object whose [disposable] is a
    string that reads ["true"] once lowercased, whatever its case. *)
Theorem Debounce_true_iff (resp : json) :
  Debounce_map_func resp = Ok (JBool true)
  <-> exists (d : dict json) (s : string),
        resp = JDict d
        /\ dict_get "disposable" d = Some (JStr s)
        /\ lower s = "true".
Proof.
  unfold Debounce_map_func. split.
  - destruct resp as [| | | | | |d]; cbn; try discriminate.
    destruct (dict_get "disposable" d) as [[| | | |s| |]|] eqn:E;
      cbn; try discriminate.
    intros H. injection H as H. apply String.eqb_eq in H.
    exists d, s. repeat split; assumption.
  - intros (d & s & -> & Hd & Hs). cbn. rewrite Hd. cbn. rewrite Hs.
    reflexivity.
Qed.

(** X8. Bouncify answers true exactly on an object whose [disposable]
    equals 1 in Python: the int 1, the boolean True or a float equal to
    1.0 (and not, for one, the string ["1"]). *)
Theorem Bouncify_true_iff (resp : json) :
  Bouncify_map_func resp = Ok (JBool true)
  <-> exists (d : dict json) (v : json),
        resp = JDict d
        /\ dict_get "disposable" d = Some v
        /\ (v = JInt 1 \/ v = JBool true
            \/ exists f : Binary64.float,
                 v = JFloat f
                 /\ Binary64.eqb f (Binary64.of_int 1) = true).
Proof.
  unfold Bouncify_map_func. split.
  - destruct resp as [| | | | | |d]; cbn; try discriminate.
    destruct (dict_get "disposable" d) as [v|] eqn:E; [|cbn; discriminate].
    intros H. injection H as H. apply py_eq_int_true in H.
    exists d, v. split; [reflexivity|]. split; [exact E|].
    destruct H as [H|[(b & -> & Hb)|H]]; auto.
    destruct b; [auto | discriminate].
  - intros (d & v & -> & Hd & Hv). cbn. rewrite Hd.
    f_equal. f_equal. apply py_eq_int_true.
    destruct Hv as [->|[->|H]]; auto.
    right; left. exists true. split; reflexivity.
Qed.

(** X9. For every descriptor of the registry, the classifier raises
    (AttributeError) exactly when the decoded value is not an object, or,
    for Bouncer, its [domain] is present and not an object, or, for
    Debounce, its [disposable] is present and not a string. *)
Theorem map_func_raises_iff (getenv : string -> option string)
    (provider : Provider) (resp : json) :
  In provider (PROVIDERS getenv) ->
  map_func provider resp = Raise AttributeError
  <-> classifier_raises provider resp = true.
Proof.
  intros Hin. unfold PROVIDERS in Hin. cbn [In] in Hin.
  repeat destruct Hin as [Hin|Hin]; try contradiction; subst provider;
    destruct resp as [| | | | | |d];
    try (cbn; split; intros _; reflexivity);
    cbn [map_func];
    unfold classifier_raises, Bouncer_map_func, Emailable_map_func,
      Bouncify_map_func, MailCheck_map_func, Reoon_map_func,
      Debounce_map_func, Kickbox_map_func;
    cbn;
    try (split; discriminate).
  - (* Bouncer *)
    destruct (dict_get "domain" d) as [[| | | | | |inner]|]; cbn;
      first [split; intros _; reflexivity | split; discriminate].
  - (* Debounce *)
    destruct (dict_get "disposable" d) as [[| | | |s| |]|]; cbn;
      first [split; intros _; reflexivity | split; discriminate].
Qed.

Lemma map_func_raises_iff_witness :
  In (sample_provider 5) (PROVIDERS sample_getenv)
  /\ (map_func (sample_provider 5) (JDict [("disposable", JBool true)])
      = Raise AttributeError
      <-> classifier_raises (sample_provider 5)
            (JDict [("disposable", JBool true)]) = true).
Proof.
  split.
  - do 5 right. left. reflexivity.
  - apply (map_func_raises_iff sample_getenv (sample_provider 5)
             (JDict [("disposable", JBool true)])).
    do 5 right. left. reflexivity.
Defined.

(** X10. A provider that takes its API key as a request parameter is sent
    the value of its environment variable under that parameter and, when
    the variable is not set, the email under test in its place:
    [os.getenv] then returns None, which the parameter loop replaces like
    the email slot. *)
Theorem key_param_or_email (getenv : string -> option string)
    (email pname key var : string) :
  In (pname, key, var) key_params ->
  exists provider : Provider,
    In provider (PROVIDERS getenv)
    /\ name provider = Some pname
    /\ dict_get key (build_params (provider_params provider) email)
       = Some match getenv var with Some v => v | None => email end.
Proof.
  intros Hin. cbn [In key_params] in Hin.
  destruct Hin as [H|[H|[H|[H|[]]]]]; injection H as <- <- <-.
  - eexists. split; [do 1 right; left; reflexivity|].
    split; [reflexivity|]. cbn.
    destruct (getenv "EMAILABLE_API_KEY"); reflexivity.
  - eexists. split; [do 2 right; left; reflexivity|].
    split; [reflexivity|]. cbn.
    destruct (getenv "BOUNCIFY_API_KEY"); reflexivity.
  - eexists. split; [do 4 right; left; reflexivity|].
    split; [reflexivity|]. cbn.
    destruct (getenv "REOON_API_KEY"); reflexivity.
  - eexists. split; [do 6 right; left; reflexivity|].
    split; [reflexivity|]. cbn.
    destruct (getenv "KICKBOX_API_KEY"); reflexivity.
Qed.

Lemma key_param_or_email_witness :
  In ("Emailable", "api_key", "EMAILABLE_API_KEY") key_params
  /\ exists provider : Provider,
       In provider (PROVIDERS empty_getenv)
       /\ name provider = Some "Emailable"
       /\ dict_get "api_key"
            (build_params (provider_params provider) "a@mailinator.com")
          = Some "a@mailinator.com".
Proof.
  split; [left; reflexivity|].
  apply (key_param_or_email empty_getenv "a@mailinator.com"
           "Emailable" "api_key" "EMAILABLE_API_KEY").
  left; reflexivity.
Defined.

(** ** Email-list loader: what the entries look like *)

Section LoadedEntries.

Lemma lstrip_chars (s : string) (c : ascii) :
  In c (chars (lstrip s)) -> In c (chars s).
Proof.
  induction s as [|c0 rest IH]; [exact (fun H => H)|].
  cbn [lstrip]. destruct (isspace c0); [|exact (fun H => H)].
  intros H. right. apply IH, H.
Qed.

Lemma rstrip_chars (s : string) (c : ascii) :
  In c (chars (rstrip s)) -> In c (chars s).
Proof.
  induction s as [|c0 rest IH]; [exact (fun H => H)|].
  cbn [rstrip]. destruct (rstrip rest) as [|c1 r].
  - destruct (isspace c0); [intros []|].
    intros [H|[]]. left. exact H.
  - intros [H|H]; [left; exact H|]. right. apply IH, H.
Qed.

Lemma strip_no_break (s : string) : no_break s -> no_break (strip s).
Proof.
  unfold no_break, strip. rewrite !Forall_forall. intros H c Hc.
  apply H, rstrip_chars, lstrip_chars, Hc.
Qed.

Lemma no_break_cons (c : ascii) (ls : list string) :
  Ascii.eqb c LF = false -> Ascii.eqb c CR = false ->
  Forall no_break ls ->
  Forall no_break
    match ls with
    | [] => [String c EmptyString]
    | line :: lines => String c line :: lines
    end.
Proof.
  intros Hlf Hcr Hls.
  apply Ascii.eqb_neq in Hlf. apply Ascii.eqb_neq in Hcr.
  destruct Hls as [|l t Hl Ht].
  - constructor; [|constructor]. repeat constructor; assumption.
  - constructor; [|exact Ht]. constructor; [split; assumption | exact Hl].
Qed.

Lemma split_lines_no_break_le (n : nat) :
  forall s : string,
    (String.length s <= n)%nat -> Forall no_break (split_lines s).
Proof.
  induction n as [|n IH]; intros s Hlen.
  - destruct s; [constructor | simpl in Hlen; lia].
  - destruct s as [|c rest]; [constructor|].
    cbn [String.length] in Hlen. cbn [split_lines].
    destruct (Ascii.eqb c LF) eqn:Elf.
    + constructor; [constructor | apply IH; lia].
    + destruct (Ascii.eqb c CR) eqn:Ecr.
      * destruct rest as [|c' rest'].
        -- repeat constructor.
        -- cbn [String.length] in Hlen.
           destruct (Ascii.eqb c' LF);
             (constructor; [constructor | apply IH; cbn [String.length]; lia]).
      * apply no_break_cons; [assumption..|]. apply IH. lia.
Qed.

Lemma split_lines_no_break (s : string) : Forall no_break (split_lines s).
Proof. apply (split_lines_no_break_le (String.length s)). lia. Qed.

Lemma nonempty_true (s : string) : nonempty s = true <-> s <> "".
Proof.
  unfold nonempty. destruct (String.eqb s "") eqn:E; cbn.
  - apply String.eqb_eq in E. split; [discriminate | congruence].
  - apply String.eqb_neq in E. split; [intros _; exact E | reflexivity].
Qed.

Lemma strip_strip (s : string) : strip (strip s) = strip s.
Proof.
  destruct (strip_trimmed s) as [Hl Hr].
  unfold strip at 1. rewrite Hr. exact Hl.
Qed.

(** The entries [load_emails] returns for a text. *)
Lemma loaded_entries (content : string) :
  stripped_lines (iter_lines (universal_newlines content))
  = filter nonempty (map strip (split_lines content)).
Proof.
  rewrite stripped_lines_filter_map.
  rewrite (Forall2_same_rstrip_strip _ _ (iter_lines_split_lines content)).
  reflexivity.
Qed.

Lemma loaded_entries_clean (content : string) :
  Forall (fun e => e <> "" /\ strip e = e /\ no_break e)
    (stripped_lines (iter_lines (universal_newlines content))).
Proof.
  rewrite loaded_entries. apply Forall_forall. intros e He.
  apply filter_In in He. destruct He as [He Hne].
  apply in_map_iff in He. destruct He as (l & <- & Hl).
  split; [apply nonempty_true, Hne|].
  split; [apply strip_strip|].
  apply strip_no_break.
  pose proof (split_lines_no_break content) as H.
  rewrite Forall_forall in H. apply H, Hl.
Qed.

Lemma universal_newlines_id (s : string) :
  Forall (fun c => c <> CR) (chars s) -> universal_newlines s = s.
Proof.
  induction s as [|c rest IH]; [reflexivity|].
  intros H. inversion H as [|c0 l Hc Hrest]; subst.
  cbn [universal_newlines].
  apply Ascii.eqb_neq in Hc. rewrite Hc, IH by exact Hrest. reflexivity.
Qed.

Lemma universal_newlines_no_CR_le (n : nat) :
  forall s : string,
    (String.length s <= n)%nat ->
    Forall (fun c => c <> CR) (chars (universal_newlines s)).
Proof.
  induction n as [|n IH]; intros s Hlen.
  - destruct s; [constructor | simpl in Hlen; lia].
  - destruct s as [|c rest]; [constructor|].
    cbn [String.length] in Hlen. cbn [universal_newlines].
    destruct (Ascii.eqb c CR) eqn:Ecr.
    + destruct rest as [|c' rest'].
      * repeat constructor. discriminate.
      * cbn [String.length] in Hlen.
        destruct (Ascii.eqb c' LF);
          (constructor; [discriminate | apply IH; cbn [String.length]; lia]).
    + constructor; [apply Ascii.eqb_neq, Ecr | apply IH; lia].
Qed.

Lemma universal_newlines_idempotent (s : string) :
  universal_newlines (universal_newlines s) = universal_newlines s.
Proof.
  apply universal_newlines_id.
  apply (universal_newlines_no_CR_le (String.length s)). lia.
Qed.

Lemma chars_app (s t : string) : chars (s ++ t)%string = chars s ++ chars t.
Proof.
  induction s as [|c s IH]; [reflexivity|].
  cbn. unfold chars in IH. rewrite IH. reflexivity.
Qed.

Lemma unlines_no_CR (entries : list string) :
  Forall no_break entries ->
  Forall (fun c => c <> CR) (chars (unlines entries)).
Proof.
  induction 1 as [|e rest He _ IH]; [constructor|].
  cbn [unlines]. rewrite chars_app. apply Forall_app. split.
  - unfold no_break in He. eapply Forall_impl; [|exact He].
    intros c [_ H]. exact H.
  - constructor; [discriminate | exact IH].
Qed.

Lemma iter_lines_entry (e rest : string) :
  no_break e ->
  iter_lines (e ++ String LF rest)%string
  = (e ++ String LF EmptyString)%string :: iter_lines rest.
Proof.
  induction e as [|c e IH]; intros He.
  - reflexivity.
  - inversion He as [|c0 l [Hc _] He']; subst.
    cbn [String.append iter_lines].
    apply Ascii.eqb_neq in Hc. rewrite Hc, (IH He'). reflexivity.
Qed.

Lemma iter_lines_unlines (entries : list string) :
  Forall no_break entries ->
  iter_lines (unlines entries)
  = map (fun e => (e ++ String LF EmptyString)%string) entries.
Proof.
  induction 1 as [|e rest He _ IH]; [reflexivity|].
  cbn [unlines map]. rewrite (iter_lines_entry _ _ He), IH. reflexivity.
Qed.

Lemma rstrip_app_LF (e : string) :
  rstrip (e ++ String LF EmptyString) = rstrip e.
Proof.
  induction e as [|c e IH]; [reflexivity|].
  cbn [String.append rstrip]. rewrite IH. reflexivity.
Qed.

Lemma stripped_lines_entries (entries : list string) :
  Forall (fun e => e <> "" /\ strip e = e /\ no_break e) entries ->
  stripped_lines
    (map (fun e => (e ++ String LF EmptyString)%string) entries)
  = entries.
Proof.
  induction 1 as [|e rest (Hne & Hs & _) _ IH]; [reflexivity|].
  cbn [map stripped_lines].
  assert (E : strip (e ++ String LF EmptyString) = e).
  { unfold strip. rewrite rstrip_app_LF. exact Hs. }
  rewrite E, IH. destruct e; [congruence | reflexivity].
Qed.

End LoadedEntries.

(** X11. Every entry [load_emails] returns is non-empty, has no whitespace
    at either end and holds no line break. *)
Theorem load_emails_entries_clean (fs : FileSystem) (path : string)
    (emails : list string) :
  load_emails fs path = Ok emails ->
  Forall (fun e => e <> "" /\ strip e = e /\ no_break e) emails.
Proof.
  unfold load_emails. destruct (fs path) as [content|]; [|discriminate].
  intros H. injection H as <-. apply loaded_entries_clean.
Qed.

Lemma load_emails_entries_clean_witness :
  load_emails sample_fs "missed.txt"
  = Ok ["a@mailinator.com"; "b@gmail.com"; "c@yopmail.com"]
  /\ Forall (fun e => e <> "" /\ strip e = e /\ no_break e)
       ["a@mailinator.com"; "b@gmail.com"; "c@yopmail.com"].
Proof.
  split; [reflexivity|].
  apply (load_emails_entries_clean sample_fs "missed.txt"
           ["a@mailinator.com"; "b@gmail.com"; "c@yopmail.com"]).
  reflexivity.
Defined.

(** X12. Loading is a round trip on what it returns: a file that holds the
    loaded entries, one per line, loads to the same entries. *)
Theorem load_emails_unlines (fs fs' : FileSystem) (path path' : string)
    (emails : list string) :
  load_emails fs path = Ok emails ->
  fs' path' = Some (unlines emails) ->
  load_emails fs' path' = Ok emails.
Proof.
  unfold load_emails at 1.
  destruct (fs path) as [content|]; [|discriminate].
  intros H Hfile. injection H as <-.
  pose proof (loaded_entries_clean content) as Hclean.
  set (emails := stripped_lines (iter_lines (universal_newlines content)))
    in *.
  assert (Hnb : Forall no_break emails).
  { eapply Forall_impl; [|exact Hclean]. intros e (_ & _ & H). exact H. }
  unfold load_emails. rewrite Hfile.
  rewrite (universal_newlines_id _ (unlines_no_CR _ Hnb)).
  rewrite (iter_lines_unlines _ Hnb), (stripped_lines_entries _ Hclean).
  reflexivity.
Qed.

Lemma load_emails_unlines_witness :
  load_emails sample_fs "missed.txt"
  = Ok ["a@mailinator.com"; "b@gmail.com"; "c@yopmail.com"]
  /\ (fun _ : string =>
        Some (unlines ["a@mailinator.com"; "b@gmail.com"; "c@yopmail.com"]))
       "copy.txt"
     = Some (unlines ["a@mailinator.com"; "b@gmail.com"; "c@yopmail.com"])
  /\ load_emails
       (fun _ : string =>
          Some (unlines ["a@mailinator.com"; "b@gmail.com"; "c@yopmail.com"]))
       "copy.txt"
     = Ok ["a@mailinator.com"; "b@gmail.com"; "c@yopmail.com"].
Proof.
  split; [reflexivity|]. split; [reflexivity|].
  apply (load_emails_unlines sample_fs
           (fun _ : string =>
              Some (unlines
                      ["a@mailinator.com"; "b@gmail.com"; "c@yopmail.com"]))
           "missed.txt" "copy.txt"
           ["a@mailinator.com"; "b@gmail.com"; "c@yopmail.com"]);
    reflexivity.
Defined.

(** X13. The convention of the line ends does not matter: a text and the
    same text with every ["\r\n"] and ["\r"] turned into ["\n"] load to the
    same entries. *)
Theorem load_emails_line_ends (fs fs' : FileSystem) (path path' : string)
    (content : string) :
  fs path = Some content ->
  fs' path' = Some (universal_newlines content) ->
  load_emails fs' path' = load_emails fs path.
Proof.
  intros H H'. unfold load_emails.
  rewrite H, H', universal_newlines_idempotent. reflexivity.
Qed.

Lemma load_emails_line_ends_witness :
  sample_fs "missed.txt" = Some sample_content
  /\ (fun _ : string => Some (universal_newlines sample_content)) "unix.txt"
     = Some (universal_newlines sample_content)
  /\ load_emails (fun _ : string => Some (universal_newlines sample_content))
       "unix.txt"
     = load_emails sample_fs "missed.txt".
Proof.
  split; [reflexivity|]. split; [reflexivity|].
  apply (load_emails_line_ends sample_fs
           (fun _ : string => Some (universal_newlines sample_content))
           "missed.txt" "unix.txt" sample_content); reflexivity.
Defined.

(** ** Scorer: composition and extreme cases *)

Section ScoreFacts.

Lemma confusion_count_app (p e : bool) (l1 l2 : list Verdict) :
  confusion_count p e (l1 ++ l2)
  = confusion_count p e l1 + confusion_count p e l2.
Proof.
  unfold confusion_count. rewrite filter_app, length_app. lia.
Qed.

Lemma confusion_count_none (p e : bool) (vs : list Verdict) :
  Forall (fun v => predicted v <> p \/ expected v <> e) vs ->
  confusion_count p e vs = 0.
Proof.
  unfold confusion_count. induction 1 as [|v vs Hv _ IH]; [reflexivity|].
  cbn [filter].
  replace (Bool.eqb (predicted v) p && Bool.eqb (expected v) e) with false.
  - exact IH.
  - symmetry. apply andb_false_iff.
    destruct Hv as [H|H]; [left | right]; apply Bool.eqb_false_iff, H.
Qed.

(** Verdicts that all carry the same expected label fill one column of the
    confusion matrix. *)
Lemma confusion_count_column (e : bool) (vs : list Verdict) :
  Forall (fun v => expected v = e) vs ->
  confusion_count true (negb e) vs = 0
  /\ confusion_count false (negb e) vs = 0
  /\ confusion_count true e vs + confusion_count false e vs
     = Z.of_nat (List.length vs).
Proof.
  intros H.
  assert (H0 : forall p, confusion_count p (negb e) vs = 0).
  { intros p. apply confusion_count_none.
    eapply Forall_impl; [|exact H].
    intros v Hv. right. rewrite Hv. destruct e; discriminate. }
  pose proof (confusion_partition vs) as Hsum.
  pose proof (H0 true). pose proof (H0 false).
  destruct e; cbn [negb] in *; repeat split; try assumption; lia.
Qed.

Lemma rate_same (n : Z) : n <> 0 -> (rate n n == 1)%Q.
Proof.
  intros Hn. unfold rate.
  destruct (n =? 0) eqn:E; [apply Z.eqb_eq in E; contradiction|].
  unfold Qdiv. apply Qmult_inv_r.
  change 0%Q with (inject_Z 0). rewrite inject_Z_injective. exact Hn.
Qed.

Lemma rate_zero (den : Z) : (rate 0 den == 0)%Q.
Proof.
  unfold rate. destruct (den =? 0); [reflexivity|].
  unfold Qdiv. apply Qmult_0_l.
Qed.

End ScoreFacts.

(** X14. Scoring a concatenation adds up: totalRequests and each of the
    four counts of [score (l1 ++ l2)] are the sums of those of [score l1]
    and [score l2]. *)
Theorem score_app (alg : sum_algorithm) (l1 l2 : list Verdict) :
  exists r1 r2 r : Report,
    score alg l1 = Ok r1 /\ score alg l2 = Ok r2
    /\ score alg (l1 ++ l2) = Ok r
    /\ total_requests r = total_requests r1 + total_requests r2
    /\ true_positives r = true_positives r1 + true_positives r2
    /\ false_negatives r = false_negatives r1 + false_negatives r2
    /\ false_positives r = false_positives r1 + false_positives r2
    /\ true_negatives r = true_negatives r1 + true_negatives r2.
Proof.
  do 3 eexists.
  split; [apply score_closed_form|].
  split; [apply score_closed_form|].
  split; [apply score_closed_form|].
  cbn [total_requests true_positives false_negatives false_positives
       true_negatives].
  rewrite !confusion_count_app, length_app.
  repeat split; lia.
Qed.

(** X15. When every prediction is right and there is at least one verdict,
    the report has no false negative and no false positive and its accuracy
    is 1; precision and recall are 1 as soon as there is a true positive. *)
Theorem score_all_right (alg : sum_algorithm) (verdicts : list Verdict) :
  Forall (fun v => predicted v = expected v) verdicts ->
  verdicts <> [] ->
  exists r : Report,
    score alg verdicts = Ok r
    /\ false_negatives r = 0 /\ false_positives r = 0
    /\ (accuracy r == 1)%Q
    /\ (0 < true_positives r ->
        (precision r == 1)%Q /\ (recall r == 1)%Q).
Proof.
  intros Hall Hne.
  eexists. split; [apply score_closed_form|].
  cbn [false_negatives false_positives true_positives accuracy precision
       recall].
  assert (Hfn : confusion_count false true verdicts = 0).
  { apply confusion_count_none. eapply Forall_impl; [|exact Hall].
    intros [[] [] t]; cbn; intros Hv;
      try discriminate Hv; first [left; discriminate | right; discriminate]. }
  assert (Hfp : confusion_count true false verdicts = 0).
  { apply confusion_count_none. eapply Forall_impl; [|exact Hall].
    intros [[] [] t]; cbn; intros Hv;
      try discriminate Hv; first [left; discriminate | right; discriminate]. }
  pose proof (confusion_partition verdicts) as Hsum.
  rewrite Hfn, Hfp in *.
  split; [reflexivity|]. split; [reflexivity|]. split.
  - replace (confusion_count true true verdicts
             + confusion_count false false verdicts)
      with (Z.of_nat (List.length verdicts)) by lia.
    apply rate_same. destruct verdicts; [congruence | cbn; lia].
  - intros Htp. rewrite !Z.add_0_r. split; apply rate_same; lia.
Qed.

Lemma score_all_right_witness :
  Forall (fun v => predicted v = expected v) [hit ms_0_1; pass ms_0_2]
  /\ [hit ms_0_1; pass ms_0_2] <> []
  /\ exists r : Report,
       score LeftToRight [hit ms_0_1; pass ms_0_2] = Ok r
       /\ false_negatives r = 0 /\ false_positives r = 0
       /\ (accuracy r == 1)%Q
       /\ (0 < true_positives r ->
           (precision r == 1)%Q /\ (recall r == 1)%Q).
Proof.
  split; [repeat constructor|]. split; [discriminate|].
  apply (score_all_right LeftToRight [hit ms_0_1; pass ms_0_2]).
  - repeat constructor.
  - discriminate.
Defined.

(** X16. When every prediction is wrong, the report has no true positive
    and no true negative, and accuracy, precision and recall are all 0. *)
Theorem score_all_wrong (alg : sum_algorithm) (verdicts : list Verdict) :
  Forall (fun v => predicted v <> expected v) verdicts ->
  exists r : Report,
    score alg verdicts = Ok r
    /\ true_positives r = 0 /\ true_negatives r = 0
    /\ (accuracy r == 0)%Q /\ (precision r == 0)%Q /\ (recall r == 0)%Q.
Proof.
  intros Hall.
  eexists. split; [apply score_closed_form|].
  cbn [true_positives true_negatives accuracy precision recall].
  assert (Htp : confusion_count true true verdicts = 0).
  { apply confusion_count_none. eapply Forall_impl; [|exact Hall].
    intros [[] [] t]; cbn; intros Hv;
      try congruence; first [left; discriminate | right; discriminate]. }
  assert (Htn : confusion_count false false verdicts = 0).
  { apply confusion_count_none. eapply Forall_impl; [|exact Hall].
    intros [[] [] t]; cbn; intros Hv;
      try congruence; first [left; discriminate | right; discriminate]. }
  rewrite Htp, Htn. cbn [Z.add].
  repeat split; apply rate_zero.
Qed.

Lemma score_all_wrong_witness :
  Forall (fun v => predicted v <> expected v) [miss ms_0_1; miss ms_0_2]
  /\ exists r : Report,
       score LeftToRight [miss ms_0_1; miss ms_0_2] = Ok r
       /\ true_positives r = 0 /\ true_negatives r = 0
       /\ (accuracy r == 0)%Q /\ (precision r == 0)%Q /\ (recall r == 0)%Q.
Proof.
  split; [repeat constructor; discriminate|].
  apply (score_all_wrong LeftToRight [miss ms_0_1; miss ms_0_2]).
  repeat constructor; discriminate.
Defined.

(** ** The main program *)

Section MainFacts.

Variable alg : sum_algorithm.
Variables disposable_emails normal_emails : list string.

Lemma main_provider_spec (provider : Provider) (w : World) :
  exists (report : Report) (w' : World),
    main_provider alg provider disposable_emails normal_emails w
    = (Ok report, w')
    /\ sent w'
       = sent w ++ provider_requests disposable_emails normal_emails provider
    /\ network w' = network w
    /\ provider_report_ok disposable_emails normal_emails w report.
Proof.
  destruct (test_provider_runs provider true disposable_emails w)
    as (rd & w1 & Hd & Rd).
  destruct (test_provider_runs provider false normal_emails w1)
    as (rn & w2 & Hn & Rn).
  destruct (runs_world _ _ _ _ _ _ Rd) as (Sd & _ & Nd & _).
  destruct (runs_world _ _ _ _ _ _ Rn) as (Sn & _ & Nn & _).
  pose proof (runs_length _ _ _ _ _ _ Rd) as Ld.
  pose proof (runs_length _ _ _ _ _ _ Rn) as Ln.
  pose proof (confusion_count_column true rd (runs_expected _ _ _ _ _ _ Rd))
    as (Cd1 & Cd2 & Cd3).
  pose proof (confusion_count_column false rn (runs_expected _ _ _ _ _ _ Rn))
    as (Cn1 & Cn2 & Cn3).
  cbn [negb] in *.
  do 2 eexists.
  split.
  { unfold main_provider, bind, lift. rewrite Hd, Hn, score_closed_form.
    reflexivity. }
  split; [unfold provider_requests; rewrite Sn, Sd, <- app_assoc; reflexivity|].
  split; [congruence|].
  unfold provider_report_ok.
  cbn [total_requests true_positives false_negatives false_positives
       true_negatives].
  cbn [recall].
  rewrite !confusion_count_app, length_app, Ld, Ln.
  split; [reflexivity|]. split; [lia|]. split; [lia|].
  split; [f_equal; lia|].
  intros Hdown.
  assert (Hdown1 : forall (n : nat) (req : Request),
             exists e : exn, network w1 n req = Raise e)
    by (rewrite Nd; exact Hdown).
  pose proof (runs_all_fail _ _ _ _ _ _ Hdown Rd) as Pd.
  pose proof (runs_all_fail _ _ _ _ _ _ Hdown1 Rn) as Pn.
  assert (Hzero : forall (e : bool) (vs : list Verdict),
             Forall (fun v => predicted v = false) vs ->
             confusion_count true e vs = 0).
  { intros e vs Hvs. apply confusion_count_none.
    eapply Forall_impl; [|exact Hvs].
    intros v Hv. left. rewrite Hv. discriminate. }
  rewrite !Hzero by assumption. split; reflexivity.
Qed.

Lemma main_loop_spec (providers : list Provider) :
  Forall (fun p => name p <> None) providers ->
  forall (summary_records : list SummaryRecord) (w : World),
    exists (records : list SummaryRecord) (w' : World),
      main_loop alg providers disposable_emails normal_emails
        summary_records w
      = (Done (summary_records ++ records), w')
      /\ map (fun r => Some (record_provider r)) records = map name providers
      /\ Forall
           (fun r =>
              provider_report_ok disposable_emails normal_emails w
                (record_report r))
           records
      /\ sent w'
         = sent w
           ++ flat_map (provider_requests disposable_emails normal_emails)
                providers
      /\ network w' = network w.
Proof.
  induction 1 as [|p rest Hp _ IH]; intros acc w.
  - exists [], w. cbn. rewrite !app_nil_r. repeat split. constructor.
  - destruct (main_provider_spec p w) as (report & w1 & Hrun & Hs & Hn & Hok).
    destruct (name p) as [n|] eqn:En; [|congruence].
    destruct (IH (acc ++ [{| record_provider := n;
                             record_report := report |}]) w1)
      as (records & w' & Hloop & Hnames & Hall & Hsent & Hnet).
    exists ({| record_provider := n; record_report := report |} :: records),
      w'.
    cbn [main_loop]. rewrite Hrun, En, Hloop, <- app_assoc.
    split; [reflexivity|].
    split; [cbn [map]; rewrite Hnames, En; reflexivity|].
    split.
    { constructor; [exact Hok|].
      eapply Forall_impl; [|exact Hall].
      unfold provider_report_ok. rewrite Hn. exact (fun r H => H). }
    split; [|congruence].
    cbn [flat_map]. rewrite Hsent, Hs, <- app_assoc. reflexivity.
Qed.

End MainFacts.

Section MainLoading.



Lemma registry_names (getenv : string -> option string) :
  map name (PROVIDERS getenv)
  = map Some ["Bouncer"; "Emailable"; "Bouncify"; "Mail-Check"; "Reoon";
              "Debounce"; "Kickbox"].
Proof. reflexivity. Qed.

Lemma registry_named (getenv : string -> option string) :
  Forall (fun p => name p <> None) (PROVIDERS getenv).
Proof. repeat constructor; discriminate. Qed.

Lemma map_Some_injective (l l' : list string) :
  map Some l = map Some l' -> l = l'.
Proof.
  revert l'. induction l as [|x l IH]; intros [|y l'] H;
    try discriminate; [reflexivity|].
  cbn in H. injection H as -> H. f_equal. apply IH, H.
Qed.

End MainLoading.



(** X18. When the files load, [main] never fails: it returns one record
    per provider, in the order of the registry, and in each record
    totalRequests is the number of loaded emails, tp + fn is the number of
    disposable emails (missed and detected), fp + tn the number of normal
    ones, and recall is tp over the number of disposable emails (0 when
    there is none). *)
Theorem main_records (alg : sum_algorithm)
    (getenv : string -> option string) (args : Args) (fs : FileSystem)
    (w : World) (ms ds ns : list string) :
  load_emails fs (missed args) = Ok ms ->
  load_detected fs args = Ok ds ->
  load_emails fs (normal args) = Ok ns ->
  exists (records : list SummaryRecord) (w' : World),
    main alg getenv args fs w = (Done records, w')
    /\ map record_provider records
       = ["Bouncer"; "Emailable"; "Bouncify"; "Mail-Check"; "Reoon";
          "Debounce"; "Kickbox"]
    /\ Forall
         (fun r =>
            let report := record_report r in
            total_requests report
            = Z.of_nat (List.length ms + List.length ds + List.length ns)
            /\ true_positives report + false_negatives report
               = Z.of_nat (List.length ms + List.length ds)
            /\ false_positives report + true_negatives report
               = Z.of_nat (List.length ns)
            /\ recall report
               = rate (true_positives report)
                   (Z.of_nat (List.length ms + List.length ds)))
         records.
Proof.
  intros Hm Hd Hn. unfold main. rewrite Hm, Hd, Hn.
  destruct (main_loop_spec alg (ms ++ ds) ns (PROVIDERS getenv)
              (registry_named getenv) [] w)
    as (records & w' & Hloop & Hnames & Hall & _).
  exists records, w'. split; [exact Hloop|]. split.
  - apply map_Some_injective. rewrite <- registry_names with (getenv := getenv).
    rewrite <- Hnames, map_map. reflexivity.
  - eapply Forall_impl; [|exact Hall].
    intros r (Ht & Hp & Hq & Hr & _). cbv zeta.
    rewrite length_app in Ht, Hp, Hr. repeat split; assumption.
Qed.

Lemma main_records_witness :
  load_emails two_files (missed sample_args) = Ok ["a@mailinator.com"]
  /\ load_detected two_files sample_args = Ok []
  /\ load_emails two_files (normal sample_args) = Ok ["b@gmail.com"]
  /\ exists (records : list SummaryRecord) (w' : World),
       main LeftToRight sample_getenv sample_args two_files timeout_world
       = (Done records, w')
       /\ map record_provider records
          = ["Bouncer"; "Emailable"; "Bouncify"; "Mail-Check"; "Reoon";
             "Debounce"; "Kickbox"]
       /\ Forall
            (fun r =>
               let report := record_report r in
               total_requests report = Z.of_nat (1 + 0 + 1)
               /\ true_positives report + false_negatives report
                  = Z.of_nat (1 + 0)
               /\ false_positives report + true_negatives report
                  = Z.of_nat 1
               /\ recall report
                  = rate (true_positives report) (Z.of_nat (1 + 0)))
            records.
Proof.
  split; [reflexivity|]. split; [reflexivity|]. split; [reflexivity|].
  apply (main_records LeftToRight sample_getenv sample_args two_files
           timeout_world ["a@mailinator.com"] [] ["b@gmail.com"]);
    reflexivity.
Defined.

(** X19. When the files load, [main] sends, provider after provider in the
    order of the registry, one request per disposable email and then one
    per normal email: seven times the number of loaded emails in all. *)
Theorem main_requests (alg : sum_algorithm)
    (getenv : string -> option string) (args : Args) (fs : FileSystem)
    (w : World) (ms ds ns : list string) :
  load_emails fs (missed args) = Ok ms ->
  load_detected fs args = Ok ds ->
  load_emails fs (normal args) = Ok ns ->
  let w' := snd (main alg getenv args fs w) in
  sent w'
  = sent w ++ flat_map (provider_requests (ms ++ ds) ns) (PROVIDERS getenv)
  /\ List.length (sent w')
     = (List.length (sent w)
        + 7 * (List.length ms + List.length ds + List.length ns))%nat.
Proof.
  intros Hm Hd Hn. unfold main. rewrite Hm, Hd, Hn.
  destruct (main_loop_spec alg (ms ++ ds) ns (PROVIDERS getenv)
              (registry_named getenv) [] w)
    as (records & w' & Hloop & _ & _ & Hsent & _).
  cbv zeta. rewrite Hloop. cbn [snd]. split; [exact Hsent|].
  rewrite Hsent, length_app. f_equal.
  unfold PROVIDERS. cbn [flat_map]. unfold provider_requests.
  rewrite !length_app, !length_map, !length_app. cbn [List.length]. lia.
Qed.

Lemma main_requests_witness :
  load_emails two_files (missed sample_args) = Ok ["a@mailinator.com"]
  /\ load_detected two_files sample_args = Ok []
  /\ load_emails two_files (normal sample_args) = Ok ["b@gmail.com"]
  /\ (let w' :=
        snd (main LeftToRight sample_getenv sample_args two_files
               timeout_world) in
      sent w'
      = sent timeout_world
        ++ flat_map (provider_requests (["a@mailinator.com"] ++ [])
                       ["b@gmail.com"])
             (PROVIDERS sample_getenv)
      /\ List.length (sent w')
         = (List.length (sent timeout_world) + 7 * (1 + 0 + 1))%nat).
Proof.
  split; [reflexivity|]. split; [reflexivity|]. split; [reflexivity|].
  apply (main_requests LeftToRight sample_getenv sample_args two_files
           timeout_world ["a@mailinator.com"] [] ["b@gmail.com"]);
    reflexivity.
Defined.

(** X20. When the files load and every request raises, every record of
    [main] has no true and no false positive, every disposable email a
    false negative and every normal email a true negative. *)
Theorem main_network_down (alg : sum_algorithm)
    (getenv : string -> option string) (args : Args) (fs : FileSystem)
    (w : World) (ms ds ns : list string) :
  load_emails fs (missed args) = Ok ms ->
  load_detected fs args = Ok ds ->
  load_emails fs (normal args) = Ok ns ->
  (forall (n : nat) (req : Request),
      exists e : exn, network w n req = Raise e) ->
  exists (records : list SummaryRecord) (w' : World),
    main alg getenv args fs w = (Done records, w')
    /\ List.length records = 7%nat
    /\ Forall
         (fun r =>
            let report := record_report r in
            true_positives report = 0
            /\ false_positives report = 0
            /\ false_negatives report
               = Z.of_nat (List.length ms + List.length ds)
            /\ true_negatives report = Z.of_nat (List.length ns))
         records.
Proof.
  intros Hm Hd Hn Hdown. unfold main. rewrite Hm, Hd, Hn.
  destruct (main_loop_spec alg (ms ++ ds) ns (PROVIDERS getenv)
              (registry_named getenv) [] w)
    as (records & w' & Hloop & Hnames & Hall & _).
  exists records, w'. split; [exact Hloop|]. split.
  - rewrite <- (length_map (fun r => Some (record_provider r))), Hnames.
    reflexivity.
  - eapply Forall_impl; [|exact Hall].
    intros r (_ & Hp & Hq & _ & Hz). cbv zeta.
    destruct (Hz Hdown) as [Htp Hfp].
    rewrite length_app in Hp. repeat split; try assumption; lia.
Qed.

Lemma main_network_down_witness :
  load_emails two_files (missed sample_args) = Ok ["a@mailinator.com"]
  /\ load_detected two_files sample_args = Ok []
  /\ load_emails two_files (normal sample_args) = Ok ["b@gmail.com"]
  /\ (forall (n : nat) (req : Request),
         exists e : exn, network timeout_world n req = Raise e)
  /\ exists (records : list SummaryRecord) (w' : World),
       main LeftToRight sample_getenv sample_args two_files timeout_world
       = (Done records, w')
       /\ List.length records = 7%nat
       /\ Forall
            (fun r =>
               let report := record_report r in
               true_positives report = 0
               /\ false_positives report = 0
               /\ false_negatives report = Z.of_nat (1 + 0)
               /\ true_negatives report = Z.of_nat 1)
            records.
Proof.
  split; [reflexivity|]. split; [reflexivity|]. split; [reflexivity|].
  split; [intros n req; exists Timeout; reflexivity|].
  apply (main_network_down LeftToRight sample_getenv sample_args two_files
           timeout_world ["a@mailinator.com"] [] ["b@gmail.com"]);
    try reflexivity.
  intros n req. exists Timeout. reflexivity.
Defined.

(** ** What the verdicts do not depend on *)

Section StatusFacts.

Variable provider : Provider.
Variable expected_flag : bool.
Variable f : Z -> Z.

Lemma step_verdict_with_status (email : string) (w : World) :
  step_verdict provider expected_flag email (with_status f w)
  = (fst (step_verdict provider expected_flag email w),
     with_status f (snd (step_verdict provider expected_flag email w))).
Proof.
  unfold step_verdict, with_status, after.
  cbn [clock ticks network sent].
  destruct (network w (List.length (sent w)) (request_of provider email))
    as [resp|e]; cbn [result_map result_bind set_status resp_json fst snd];
    [|reflexivity].
  destruct (resp_json resp) as [data|e]; [|reflexivity].
  destruct (map_func provider data) as [flag|e]; reflexivity.
Qed.

Lemma runs_with_status (email_list : list string) (w w' : World)
    (vs : list Verdict) :
  runs provider expected_flag email_list w vs w' ->
  runs provider expected_flag email_list (with_status f w) vs
    (with_status f w').
Proof.
  induction 1 as [w|email rest w w1 w' v vs Hv _ IH].
  - constructor.
  - econstructor; [|exact IH].
    rewrite test_email_closed_form in Hv. injection Hv as Hv Hw.
    rewrite test_email_closed_form, step_verdict_with_status.
    cbn [fst snd]. congruence.
Qed.

End StatusFacts.

(** X21. The status code of a response has no influence on the verdicts:
    rewriting the status of every response in any way leaves the results
    of [test_provider] as they are. *)
Theorem test_provider_status_blind (provider : Provider)
    (email_list : list string) (expected_flag : bool) (f : Z -> Z)
    (w : World) :
  fst (test_provider provider email_list expected_flag (with_status f w))
  = fst (test_provider provider email_list expected_flag w).
Proof.
  destruct (test_provider_runs provider expected_flag email_list w)
    as (vs & w' & Hrun & Hruns).
  rewrite Hrun.
  rewrite (runs_test_provider _ _ _ _ _ _
             (runs_with_status provider expected_flag f _ _ _ _ Hruns)).
  reflexivity.
Qed.

(** X22. Emailable, Mail-Check, Reoon and Kickbox hand back the field they
    read, so the verdict is its truth value for [bool()]: it is true
    exactly on an object whose [disposable] ([is_disposable] for Reoon) is
    present and truthy, be it True, a number other than 0 or any non-empty
    string. *)
Theorem field_classifiers_true_iff (resp : json) :
  (result_map truthy (Emailable_map_func resp) = Ok true
   <-> field_truthy "disposable" resp)
  /\ (result_map truthy (MailCheck_map_func resp) = Ok true
      <-> field_truthy "disposable" resp)
  /\ (result_map truthy (Reoon_map_func resp) = Ok true
      <-> field_truthy "is_disposable" resp)
  /\ (result_map truthy (Kickbox_map_func resp) = Ok true
      <-> field_truthy "disposable" resp).
Proof.
  assert (H : forall key : string,
             result_map truthy (py_get resp key (JBool false)) = Ok true
             <-> field_truthy key resp).
  { intros key. unfold field_truthy. split.
    - destruct resp as [| | | | | |d]; cbn; try discriminate.
      destruct (dict_get key d) as [v|] eqn:E; [|discriminate].
      intros Hv. injection Hv as Hv. exists d, v. repeat split; assumption.
    - intros (d & v & -> & Hd & Hv). cbn. rewrite Hd, Hv. reflexivity. }
  repeat split; apply H.
Qed.
